(** * A todo-list backend: controllers over a relational store

    Shallow embedding of the Express controllers of the backend
    ([todoController.ts], the category controller, the Sequelize models
    [Todo] and [Category]) and of the part of the store they rely on.

    The two tables are finite maps from primary key to row.  A controller
    is a function from the store state to a reply and a new state; the
    calls into the ORM live in a small state-and-exception monad, and the
    [try { ... } catch] of every controller is [try_catch]. *)

From stdpp Require Import base option list sorting gmap strings.
From Stdlib Require Import ZArith Ascii String Lia.

Local Open Scope string_scope.
Local Open Scope Z_scope.

(** ** Rows *)

(** A table is a finite map from the primary key [id] to the other columns
    of the row; a row together with its key is what the ORM calls an
    instance. *)

(** [models/Category.ts]: [name] and [color]. *)
Module Category.
Record t : Type := mk {
  name : string;
  color : string
}.
End Category.

(** [models/Todo.ts], typed as [TodoAttributes] declares the columns:
    [title], [completed] and [priority] always hold a value, [description],
    [due_date] and [category_id] may be null.  Dates are milliseconds,
    within the range of a JavaScript [Date].  Of
    the two timestamps that Sequelize maintains, [createdAt] is the one a
    controller reads, in the [order] of [getTodos]; [updatedAt] is read by
    none and is left out, here and in [Category]. *)
Module Todo.
Record t : Type := mk {
  title : string;
  description : option string;
  completed : bool;
  priority : string;
  due_date : option Z;
  category_id : option Z;
  createdAt : Z
}.
End Todo.

#[global] Instance Category_eq_dec : EqDecision Category.t.
Proof. solve_decision. Defined.
#[global] Instance Todo_eq_dec : EqDecision Todo.t.
Proof. solve_decision. Defined.

(** ** The store *)

(** The tables [Todos] and [Categories] keyed by primary key, and the two
    [SERIAL] sequences behind [autoIncrement]. *)
Record DB : Type := mkDB {
  Todos : gmap Z Todo.t;
  Categories : gmap Z Category.t;
  Todos_seq : Z;
  Categories_seq : Z
}.

Definition empty_db : DB := mkDB ∅ ∅ 0 0.

Definition set_Todos (f : gmap Z Todo.t → gmap Z Todo.t) (db : DB) : DB :=
  mkDB (f (Todos db)) (Categories db) (Todos_seq db) (Categories_seq db).
Definition set_Categories (f : gmap Z Category.t → gmap Z Category.t) (db : DB) : DB :=
  mkDB (Todos db) (f (Categories db)) (Todos_seq db) (Categories_seq db).
Definition set_Todos_seq (n : Z) (db : DB) : DB :=
  mkDB (Todos db) (Categories db) n (Categories_seq db).
Definition set_Categories_seq (n : Z) (db : DB) : DB :=
  mkDB (Todos db) (Categories db) (Todos_seq db) n.

(** What a call into the ORM can throw. *)
Inductive StoreError : Type :=
  | NotNullViolation      (* Sequelize: allowNull: false *)
  | InvalidWhereValue     (* Sequelize: undefined in a where clause *)
  | StringTooLong         (* value too long for VARCHAR(255) *)
  | ForeignKeyViolation   (* Todos.category_id -> Categories.id *)
  | UniqueViolation       (* primary key *)
  | InvalidInteger        (* a literal that is no INTEGER *)
  | NegativeWindow        (* LIMIT or OFFSET below zero *)
  | BigintOutOfRange.     (* LIMIT or OFFSET outside the range of BIGINT *)

(** State and exceptions: an ORM call reads and writes the store and either
    returns or throws; what was written before a throw stays written. *)
Definition Store (A : Type) : Type := DB → (StoreError + A) * DB.

Definition ret {A} (a : A) : Store A := λ db, (inr a, db).
Definition throw {A} (e : StoreError) : Store A := λ db, (inl e, db).
Definition bind {A B} (m : Store A) (k : A → Store B) : Store B :=
  λ db, match m db with
        | (inl e, db') => (inl e, db')
        | (inr a, db') => k a db'
        end.
Definition get : Store DB := λ db, (inr db, db).
Definition modify (f : DB → DB) : Store unit := λ db, (inr tt, f db).

Notation "'let*' x ':=' m 'in' k" := (bind m (λ x, k))
  (at level 10, x binder, m at level 100, k at level 200, only parsing).
Notation "m ';;' k" := (bind m (λ _, k))
  (at level 100, k at level 200, right associativity, only parsing).

(** ** Replies *)

(** [res.status(s).json({ success: true, data, message })] and
    [res.status(s).json({ success: false, message })]. *)
Inductive Reply (A : Type) : Type :=
  | Success (status : nat) (data : A) (message : option string)
  | Failure (status : nat) (message : string).
Arguments Success {A} status data message.
Arguments Failure {A} status message.

(** [try { ... } catch (error) { res.status(s).json({ success: false,
    message }) }]: the controller's body runs in the store; a throw becomes
    the failure reply of the catch block. *)
Definition try_catch {A} (body : Store (Reply A)) (status : nat) (message : string)
  : DB → Reply A * DB :=
  λ db, match body db with
        | (inr r, db') => (r, db')
        | (inl _, db') => (Failure status message, db')
        end.

(** ** Strings as the store compares them *)

Definition chars (s : string) : list ascii := list_ascii_of_string s.

(** Case folding, as [ILIKE] applies it to both sides.  The database folds
    by its locale; on ASCII text that is [A] to [Z] onto [a] to [z], which is
    what is modelled.  Whatever is stated below of a search is stated of
    ASCII text, [ascii_text]. *)
Definition to_lower (c : ascii) : ascii :=
  let n := N_of_ascii c in
  if ((65 <=? n) && (n <=? 90))%N then ascii_of_N (n + 32) else c.

(** PostgreSQL's [LIKE]: [%] stands for any run of characters, [_] for any
    one character, and a backslash makes the character after it literal.  A
    pattern that ends in a lone backslash is refused by the store; it cannot
    arise below, where every pattern ends in [%]. *)
Fixpoint like (p s : list ascii) : bool :=
  match p with
  | [] => match s with [] => true | _ :: _ => false end
  | c :: p' =>
      if Ascii.eqb c "%" then
        (fix star (s : list ascii) : bool :=
           like p' s || match s with [] => false | _ :: s' => star s' end) s
      else if Ascii.eqb c "_" then
        match s with [] => false | _ :: s' => like p' s' end
      else if Ascii.eqb c "\" then
        match p' with
        | [] => false
        | e :: p'' =>
            match s with [] => false | d :: s' => Ascii.eqb e d && like p'' s' end
        end
      else
        match s with [] => false | d :: s' => Ascii.eqb c d && like p' s' end
  end.

(** [column ILIKE pattern]. *)
Definition iLike (pattern value : string) : bool :=
  like (to_lower <$> chars pattern) (to_lower <$> chars value).

(** [DataTypes.STRING] is [VARCHAR(255)]: on assignment a longer value is an
    error, unless all that exceeds the length is spaces, which are cut. *)
Definition varchar255 (s : string) : option string :=
  if (String.length s <=? 255)%nat then Some s
  else if forallb (Ascii.eqb " ") (drop 255 (chars s))
       then Some (string_of_list_ascii (take 255 (chars s)))
       else None.

(** JavaScript truthiness of a string: every string but the empty one. *)
Definition truthy (s : string) : bool := negb (String.eqb s "").

(** [a || b] on an optional string: [a] unless it is undefined or empty. *)
Definition or_else (a : option string) (b : string) : string :=
  match a with
  | Some s => if truthy s then s else b
  | None => b
  end.

(** ** What the controllers assume of the database engine

    Two things are fixed by the engine and not by the repository: how a
    quoted literal is read as an [INTEGER] ([None] when the engine refuses
    it), and in which order [ORDER BY "createdAt" DESC] returns the rows it
    is given.  SQL promises of the latter that the rows are the same rows and
    that they descend by [createdAt]; rows of equal [createdAt] come in an
    order the engine chooses. *)
Definition createdAt_desc (a b : Z * Todo.t) : Prop :=
  Todo.createdAt b.2 ≤ Todo.createdAt a.2.

Class Engine : Type := {
  int_literal : string → option Z;
  order_by_createdAt_desc : list (Z * Todo.t) → list (Z * Todo.t);
  order_by_Permutation : ∀ l, order_by_createdAt_desc l ≡ₚ l;
  order_by_Sorted : ∀ l, Sorted createdAt_desc (order_by_createdAt_desc l)
}.

(** ** The integer types of the store and of the requests *)

(** A key column of type [INTEGER] holds 32 bits. *)
Definition INTEGER (n : Z) : Prop := -2147483648 ≤ n ≤ 2147483647.

#[global] Instance INTEGER_dec (n : Z) : Decision (INTEGER n).
Proof. unfold INTEGER. apply _. Defined.

(** The largest [BIGINT], [2^63 - 1]. *)
Definition BIGINT_MAX : Z := 9223372036854775807.

(** [Number.MAX_SAFE_INTEGER], [2^53 - 1]: up to it the numbers of
    JavaScript are the integers, and sums and products that stay below it
    are exact. *)
Definition MAX_SAFE_INTEGER : Z := 9007199254740991.

(** ** [getTodos] *)

(** [req.query] of the list operation.  [page] and [limit] are given as the
    integers [Number(...)] turns them into; the other four are the strings
    Express hands over, [None] for a parameter that is not in the request.
    The arithmetic on [page] and [limit] is that of the integers, as it is
    in JavaScript up to [MAX_SAFE_INTEGER]; what is stated below of a window
    is stated within that range. *)
Module Query.
Record t : Type := mk {
  page : option Z;
  limit : option Z;
  search : option string;
  category : option string;
  priority : option string;
  completed : option string
}.
End Query.

(** The [where] object: each field is set or left out. *)
Record Where : Type := mkWhere {
  where_search : option string;       (* [Op.or] of the two [Op.iLike] *)
  where_category_id : option string;
  where_priority : option string;
  where_completed : option bool
}.

Definition default {A} (d : A) (o : option A) : A :=
  match o with Some a => a | None => d end.

(** Lines 18 to 41: the four [if]s that fill [where]. *)
Definition build_where (q : Query.t) : Where :=
  let search := default "" (Query.search q) in
  {| where_search := if truthy search then Some search else None;
     where_category_id :=
       match Query.category q with
       | Some c => if truthy c then Some c else None
       | None => None
       end;
     where_priority :=
       match Query.priority q with
       | Some p => if truthy p then Some p else None
       | None => None
       end;
     where_completed :=
       match Query.completed q with
       | Some c => Some (String.eqb c "true")
       | None => None
       end |}.

(** [Math.ceil(a / b)] on integers: the quotient rounded up; [None] when
    [b] is zero and the quotient is no number. *)
Definition Math_ceil_div (a b : Z) : option Z :=
  if b =? 0 then None else Some (- ((- a) / b)).

(** The [include] of every read: the todo's category, cut down to
    [attributes: ['id', 'name', 'color']], or null. *)
Module TodoJson.
Record t : Type := mk {
  id : Z;
  todo : Todo.t;
  category : option (Z * string * string)
}.
End TodoJson.

Definition include_category (db : DB) (i : Z * Todo.t) : TodoJson.t :=
  {| TodoJson.id := i.1;
     TodoJson.todo := i.2;
     TodoJson.category :=
       match Todo.category_id i.2 with
       | Some c =>
           match Categories db !! c with
           | Some cat => Some (c, Category.name cat, Category.color cat)
           | None => None
           end
       | None => None
       end |}.

Record Pagination : Type := mkPagination {
  total : Z;
  current_page : Z;
  per_page : Z;
  total_pages : option Z
}.

Record TodoPage : Type := mkTodoPage {
  data : list TodoJson.t;
  pagination : Pagination
}.

Section WithEngine.
Context `{Engine}.

(** The condition the store evaluates on one row: the conjunction of the
    fields that are set.  A null column never equals a value and is never
    [ILIKE] a pattern. *)
Definition where_matches (w : Where) (t : Todo.t) : bool :=
  match where_search w with
  | Some s =>
      iLike ("%" ++ s ++ "%") (Todo.title t)
      || match Todo.description t with
         | Some d => iLike ("%" ++ s ++ "%") d
         | None => false
         end
  | None => true
  end
  && match where_category_id w with
     | Some c =>
         match int_literal c with
         | Some k => bool_decide (Todo.category_id t = Some k)
         | None => false
         end
     | None => true
     end
  && match where_priority w with
     | Some p => String.eqb (Todo.priority t) p
     | None => true
     end
  && match where_completed w with
     | Some b => Bool.eqb (Todo.completed t) b
     | None => true
     end.

(** The engine refuses the statement when the category literal is no
    integer. *)
Definition where_well_typed (w : Where) : bool :=
  match where_category_id w with
  | Some c => bool_decide (is_Some (int_literal c))
  | None => true
  end.

Definition matching (w : Where) (db : DB) : list (Z * Todo.t) :=
  filter (λ i, where_matches w i.2 = true) (map_to_list (Todos db)).

(** [db.Todo.findAndCountAll({ where, limit, offset, order })]: the count
    of the rows that match, and the window of them in the order of the
    [ORDER BY].  [LIMIT] and [OFFSET] are of type [BIGINT]: the engine
    refuses a negative one and one that is [2^63] or more. *)
Definition Todo_findAndCountAll (w : Where) (limit offset : Z)
  : Store (nat * list (Z * Todo.t)) :=
  let* db := get in
  if negb (where_well_typed w) then throw InvalidInteger
  else if (limit <? 0) || (offset <? 0) then throw NegativeWindow
  else if (BIGINT_MAX <? limit) || (BIGINT_MAX <? offset) then throw BigintOutOfRange
  else
    ret (List.length (matching w db),
         take (Z.to_nat limit)
              (drop (Z.to_nat offset) (order_by_createdAt_desc (matching w db)))).

Definition getTodos (q : Query.t) : DB → Reply TodoPage * DB :=
  try_catch (
    let page := default 1 (Query.page q) in
    let limit := default 10 (Query.limit q) in
    let offset := (page - 1) * limit in
    let where_ := build_where q in
    let* '(count, rows) := Todo_findAndCountAll where_ limit offset in
    let* db := get in
    ret (Success 200
           {| data := include_category db <$> rows;
              pagination :=
                {| total := Z.of_nat count;
                   current_page := page;
                   per_page := limit;
                   total_pages := Math_ceil_div (Z.of_nat count) limit |} |}
           None))
    500 "Error fetching todos".
End WithEngine.

(** ** The models' write operations *)

(** A JavaScript object that holds some of a todo's fields, as [req.body]
    and as the argument of [create] and [update]: [None] is a field that is
    undefined, and for a column that may be null [Some None] is null.  A
    [due_date] is given as the number of its milliseconds. *)
Module PartialTodo.
Record t : Type := mk {
  title : option string;
  description : option (option string);
  category_id : option (option Z);
  priority : option string;
  due_date : option (option Z);
  completed : option bool
}.
End PartialTodo.

Module PartialCategory.
Record t : Type := mk {
  name : option string;
  color : option string
}.
End PartialCategory.

(** Modelled from the spec: the migration that creates the table [Todos] is
    not among the sources.  The spec gives the persistence collaborator
    referential integrity: a [category_id] that is written is null or the
    [id] of a stored Category. *)
Definition references_Category (db : DB) (category_id : option Z) : bool :=
  match category_id with
  | Some c => bool_decide (is_Some (Categories db !! c))
  | None => true
  end.

(** The strings of an object, as the columns of type [STRING] store them. *)
Definition stored_string (field : option string) : option (option string) :=
  match field with
  | Some s => match varchar255 s with Some s' => Some (Some s') | None => None end
  | None => Some None
  end.

(** What the store checks of the fields an object sets. *)
Definition Todo_accepts (db : DB) (v : PartialTodo.t) : Store unit :=
  match stored_string (PartialTodo.title v), stored_string (PartialTodo.priority v) with
  | Some _, Some _ =>
      if references_Category db (default None (PartialTodo.category_id v))
      then ret tt
      else throw ForeignKeyViolation
  | _, _ => throw StringTooLong
  end.

(** The row after the fields of [v] are written over it. *)
Definition Todo_set (v : PartialTodo.t) (t : Todo.t) : Todo.t :=
  {| Todo.title := default (Todo.title t) (PartialTodo.title v ≫= varchar255);
     Todo.description := default (Todo.description t) (PartialTodo.description v);
     Todo.completed := default (Todo.completed t) (PartialTodo.completed v);
     Todo.priority := default (Todo.priority t) (PartialTodo.priority v ≫= varchar255);
     Todo.due_date := default (Todo.due_date t) (PartialTodo.due_date v);
     Todo.category_id := default (Todo.category_id t) (PartialTodo.category_id v);
     Todo.createdAt := Todo.createdAt t |}.

(** [findByPk(id)] compares the key column with [id], the integer that
    [req.params.id] denotes.  Keys and sequences are integers without bound
    here; the key columns of the store are of type [INTEGER], and a path
    that denotes no [INTEGER] is refused by the engine, so that the
    controller answers from its catch block.  That request is outside the
    four definitions below: what is stated of an [id] that is not stored is
    stated of an [INTEGER] one. *)

(** [db.Todo.findByPk(id)]. *)
Definition Todo_findByPk (id : Z) : Store (option (Z * Todo.t)) :=
  let* db := get in ret ((λ t, (id, t)) <$> Todos db !! id).

(** [db.Todo.findByPk(id, { include })]. *)
Definition Todo_findByPk_include (id : Z) : Store (option TodoJson.t) :=
  let* db := get in ret ((λ t, include_category db (id, t)) <$> Todos db !! id).

(** [db.Todo.create(v)]: [title] is [allowNull: false], [completed] and
    [priority] have their [defaultValue], [id] is the next value of the
    sequence, [createdAt] is the time of the call.  A string that does not
    fit its column is refused before the sequence is asked for a value; a
    category that is not stored and a key that is taken are found when the
    row is inserted, and the value of the sequence is used up. *)
Definition Todo_create (v : PartialTodo.t) (now : Z) : Store (Z * Todo.t) :=
  match PartialTodo.title v with
  | None => throw NotNullViolation
  | Some _ =>
      match stored_string (PartialTodo.title v),
            stored_string (PartialTodo.priority v) with
      | Some _, Some _ =>
          let* db := get in
          let id := Todos_seq db + 1 in
          modify (set_Todos_seq id) ;;
          Todo_accepts db v ;;
          if bool_decide (is_Some (Todos db !! id)) then throw UniqueViolation
          else
            let t := Todo_set v
                       {| Todo.title := ""; Todo.description := None;
                          Todo.completed := false; Todo.priority := "medium";
                          Todo.due_date := None; Todo.category_id := None;
                          Todo.createdAt := now |} in
            modify (set_Todos (insert id t)) ;;
            ret (id, t)
      | _, _ => throw StringTooLong
      end
  end.

(** [todo.update(v)] on the instance with key [id]. *)
Definition Todo_update (id : Z) (v : PartialTodo.t) : Store unit :=
  let* db := get in
  Todo_accepts db v ;;
  modify (set_Todos (alter (Todo_set v) id)).

(** [db.Todo.update(v, { where: { category_id } })]. *)
Definition Todo_update_where_category_id (category_id : Z) (v : PartialTodo.t)
  : Store unit :=
  let* db := get in
  Todo_accepts db v ;;
  modify (set_Todos (fmap (λ t, if bool_decide (Todo.category_id t = Some category_id)
                                then Todo_set v t else t))).

(** [todo.destroy()]. *)
Definition Todo_destroy (id : Z) : Store unit :=
  modify (set_Todos (delete id)).

(** [db.Category.findByPk(id)]. *)
Definition Category_findByPk (id : Z) : Store (option (Z * Category.t)) :=
  let* db := get in ret ((λ c, (id, c)) <$> Categories db !! id).

(** [db.Category.findOne({ where: { name } })]: a row of that very name, if
    there is one; Sequelize throws when [name] is undefined. *)
Definition Category_findOne_name (name : option string) : Store (option (Z * Category.t)) :=
  match name with
  | None => throw InvalidWhereValue
  | Some n =>
      let* db := get in
      ret (head (filter (λ i, Category.name i.2 = n) (map_to_list (Categories db))))
  end.

(** [db.Category.create(v)]: both columns are [allowNull: false].  As in
    [Todo_create], a string that does not fit is refused before the
    sequence is asked for a value. *)
Definition Category_create (v : PartialCategory.t) : Store (Z * Category.t) :=
  match PartialCategory.name v, PartialCategory.color v with
  | Some name, Some color =>
      match varchar255 name, varchar255 color with
      | Some name', Some color' =>
          let* db := get in
          let id := Categories_seq db + 1 in
          modify (set_Categories_seq id) ;;
          if bool_decide (is_Some (Categories db !! id)) then throw UniqueViolation
          else
            let c := {| Category.name := name'; Category.color := color' |} in
            modify (set_Categories (insert id c)) ;;
            ret (id, c)
      | _, _ => throw StringTooLong
      end
  | _, _ => throw NotNullViolation
  end.

Definition Category_set (v : PartialCategory.t) (c : Category.t) : Category.t :=
  {| Category.name := default (Category.name c) (PartialCategory.name v ≫= varchar255);
     Category.color := default (Category.color c) (PartialCategory.color v ≫= varchar255) |}.

(** The instance after the fields of [v] are assigned to it. *)
Definition Category_assign (v : PartialCategory.t) (c : Category.t) : Category.t :=
  {| Category.name := default (Category.name c) (PartialCategory.name v);
     Category.color := default (Category.color c) (PartialCategory.color v) |}.

(** [category.update(v)]: the row of the instance's key is written, its
    strings cut to the columns as the store cuts them, and the instance
    holds the values as they were given. *)
Definition Category_update (i : Z * Category.t) (v : PartialCategory.t)
  : Store (Z * Category.t) :=
  match stored_string (PartialCategory.name v), stored_string (PartialCategory.color v) with
  | Some _, Some _ =>
      modify (set_Categories (alter (Category_set v) i.1)) ;;
      ret (i.1, Category_assign v i.2)
  | _, _ => throw StringTooLong
  end.

(** [category.destroy()].  As the comment in [deleteCategory] has it, the
    foreign key of [Todos] blocks the deletion of a category that a todo
    still points at. *)
Definition Category_destroy (id : Z) : Store unit :=
  let* db := get in
  if bool_decide (map_Forall (λ _ t, Todo.category_id t ≠ Some id) (Todos db))
  then modify (set_Categories (delete id))
  else throw ForeignKeyViolation.

(** ** The todo controllers *)

(** [due_date || null]: [due_date] unless it is undefined, null or the
    number 0. *)
Definition or_null (due_date : option (option Z)) : option Z :=
  match due_date with
  | Some (Some d) => if d =? 0 then None else Some d
  | _ => None
  end.

(** [createTodo], lines 102 to 135; [now] is the time of the request, which
    the store stamps on the row. *)
Definition createTodo (body : PartialTodo.t) (now : Z)
  : DB → Reply (option TodoJson.t) * DB :=
  try_catch (
    let* todo :=
      Todo_create
        {| PartialTodo.title := PartialTodo.title body;
           PartialTodo.description := PartialTodo.description body;
           PartialTodo.category_id := PartialTodo.category_id body;
           PartialTodo.priority := Some (or_else (PartialTodo.priority body) "medium");
           PartialTodo.due_date := Some (or_null (PartialTodo.due_date body));
           PartialTodo.completed := Some false |}
        now in
    let* newTodo := Todo_findByPk_include todo.1 in
    ret (Success 201 newTodo (Some "Todo created successfully")))
    400 "Error creating todo".

(** The object that [updateTodo] hands to [update], lines 151 to 158: every
    field is the request's when that is not undefined, and the instance's
    otherwise. *)
Definition updateTodo_values (todo : Todo.t) (body : PartialTodo.t) : PartialTodo.t :=
  {| PartialTodo.title :=
       Some (default (Todo.title todo) (PartialTodo.title body));
     PartialTodo.description :=
       Some (default (Todo.description todo) (PartialTodo.description body));
     PartialTodo.category_id :=
       Some (default (Todo.category_id todo) (PartialTodo.category_id body));
     PartialTodo.priority :=
       Some (default (Todo.priority todo) (PartialTodo.priority body));
     PartialTodo.due_date :=
       Some (default (Todo.due_date todo) (PartialTodo.due_date body));
     PartialTodo.completed :=
       Some (default (Todo.completed todo) (PartialTodo.completed body)) |}.

(** [updateTodo], lines 137 to 180. *)
Definition updateTodo (id : Z) (body : PartialTodo.t)
  : DB → Reply (option TodoJson.t) * DB :=
  try_catch (
    let* todo := Todo_findByPk id in
    match todo with
    | None => ret (Failure 404 "Todo not found")
    | Some (_, todo) =>
        Todo_update id (updateTodo_values todo body) ;;
        let* updatedTodo := Todo_findByPk_include id in
        ret (Success 200 updatedTodo (Some "Todo updated successfully"))
    end)
    400 "Error updating todo".

(** [deleteTodo], lines 182 to 207. *)
Definition deleteTodo (id : Z) : DB → Reply unit * DB :=
  try_catch (
    let* todo := Todo_findByPk id in
    match todo with
    | None => ret (Failure 404 "Todo not found")
    | Some _ =>
        Todo_destroy id ;;
        ret (Success 200 tt (Some "Todo deleted successfully"))
    end)
    500 "Error deleting todo".

Definition only_completed (b : bool) : PartialTodo.t :=
  {| PartialTodo.title := None; PartialTodo.description := None;
     PartialTodo.category_id := None; PartialTodo.priority := None;
     PartialTodo.due_date := None; PartialTodo.completed := Some b |}.

(** [toggleTodoComplete], lines 209 to 243. *)
Definition toggleTodoComplete (id : Z)
  : DB → Reply (option TodoJson.t) * DB :=
  try_catch (
    let* todo := Todo_findByPk id in
    match todo with
    | None => ret (Failure 404 "Todo not found")
    | Some (_, todo) =>
        Todo_update id (only_completed (negb (Todo.completed todo))) ;;
        let* updatedTodo := Todo_findByPk_include id in
        ret (Success 200 updatedTodo (Some "Todo status updated successfully"))
    end)
    400 "Error updating todo status".

(** ** The category controllers *)

(** [createCategory]. *)
Definition createCategory (body : PartialCategory.t)
  : DB → Reply (Z * Category.t) * DB :=
  try_catch (
    let* existingCategory := Category_findOne_name (PartialCategory.name body) in
    match existingCategory with
    | Some _ => ret (Failure 400 "Category already exists")
    | None =>
        let* category :=
          Category_create
            {| PartialCategory.name := PartialCategory.name body;
               PartialCategory.color :=
                 Some (or_else (PartialCategory.color body) "#1890ff") |} in
        ret (Success 201 category (Some "Category created successfully"))
    end)
    400 "Error creating category".

(** [updateCategory]. *)
Definition updateCategory (id : Z) (body : PartialCategory.t)
  : DB → Reply (Z * Category.t) * DB :=
  try_catch (
    let* found := Category_findByPk id in
    match found with
    | None => ret (Failure 404 "Category not found")
    | Some (_, category) =>
        let* existingCategory :=
          match PartialCategory.name body with
          | Some name =>
              if truthy name && negb (String.eqb name (Category.name category))
              then Category_findOne_name (Some name)
              else ret None
          | None => ret None
          end in
        match existingCategory with
        | Some _ => ret (Failure 400 "Category name already exists")
        | None =>
            let* updated :=
              Category_update (id, category)
                {| PartialCategory.name :=
                     Some (or_else (PartialCategory.name body) (Category.name category));
                   PartialCategory.color :=
                     Some (or_else (PartialCategory.color body) (Category.color category)) |}
              in
            ret (Success 200 updated (Some "Category updated successfully"))
        end
    end)
    400 "Error updating category".

Definition only_category_id (c : option Z) : PartialTodo.t :=
  {| PartialTodo.title := None; PartialTodo.description := None;
     PartialTodo.category_id := Some c; PartialTodo.priority := None;
     PartialTodo.due_date := None; PartialTodo.completed := None |}.

(** [deleteCategory]. *)
Definition deleteCategory (id : Z) : DB → Reply unit * DB :=
  try_catch (
    let* category := Category_findByPk id in
    match category with
    | None => ret (Failure 404 "Category not found")
    | Some _ =>
        (* Set todos with this category to null instead of blocking deletion *)
        Todo_update_where_category_id id (only_category_id None) ;;
        Category_destroy id ;;
        ret (Success 200 tt (Some "Category deleted successfully"))
    end)
    500 "Error deleting category".

(** ** The read controllers *)

(** [getTodoById], lines 74 to 100. *)
Definition getTodoById (id : Z) : DB → Reply TodoJson.t * DB :=
  try_catch (
    let* todo := Todo_findByPk_include id in
    match todo with
    | None => ret (Failure 404 "Todo not found")
    | Some todo => ret (Success 200 todo None)
    end)
    500 "Error fetching todo".

(** What [ORDER BY "name" ASC] does is the engine's as well: the order of
    two names is that of the collation of the database, and categories of
    equal rank come as the engine chooses. *)
Class NameOrder : Type := {
  name_le : relation string;
  order_by_name_asc : list (Z * Category.t) → list (Z * Category.t);
  order_by_name_Permutation : ∀ l, order_by_name_asc l ≡ₚ l;
  order_by_name_Sorted :
    ∀ l, Sorted (λ a b, name_le (Category.name a.2) (Category.name b.2))
           (order_by_name_asc l)
}.

(** [getCategories]. *)
Definition getCategories `{NameOrder} : DB → Reply (list (Z * Category.t)) * DB :=
  try_catch (
    let* db := get in
    let categories := order_by_name_asc (map_to_list (Categories db)) in
    ret (Success 200 categories None))
    500 "Error fetching categories".

(** A category with the [include] of [getCategoryById]: its todos, cut down
    to [attributes: ['id', 'title', 'completed']]. *)
Module CategoryJson.
Record t : Type := mk {
  id : Z;
  category : Category.t;
  todos : list (Z * string * bool)
}.
End CategoryJson.

(** [db.Category.findByPk(id, { include })].  The todos of the category are
    the rows of [Todos] whose [category_id] is [id]; the request gives them
    no order, and they are listed as the table is read. *)
Definition Category_findByPk_include (id : Z) : Store (option CategoryJson.t) :=
  let* db := get in
  ret ((λ c,
         {| CategoryJson.id := id;
            CategoryJson.category := c;
            CategoryJson.todos :=
              (λ i : Z * Todo.t, (i.1, Todo.title i.2, Todo.completed i.2))
                <$> filter (λ i : Z * Todo.t, Todo.category_id i.2 = Some id)
                      (map_to_list (Todos db)) |})
       <$> Categories db !! id).

(** [getCategoryById]. *)
Definition getCategoryById (id : Z) : DB → Reply CategoryJson.t * DB :=
  try_catch (
    let* category := Category_findByPk_include id in
    match category with
    | None => ret (Failure 404 "Category not found")
    | Some category => ret (Success 200 category None)
    end)
    500 "Error fetching category".

(** ** The validation middleware

    A middleware either answers the request or hands it on with [next()].
    A character of a string is a code unit below 256. *)

Inductive Validated : Type :=
  | Next
  | ValidationFailed (errors : list string).
      (* [res.status(400).json({ success: false, message: 'Validation failed', errors })] *)

(** The code units below 256 that [String.prototype.trim] removes: tab to
    carriage return, space, and the no-break space. *)
Definition is_white_space (c : ascii) : bool :=
  let n := N_of_ascii c in
  (((9 <=? n) && (n <=? 13)) || (n =? 32) || (n =? 160))%N.

Fixpoint trim_start (s : list ascii) : list ascii :=
  match s with
  | [] => []
  | c :: s' => if is_white_space c then trim_start s' else s
  end.

(** [s.trim()]. *)
Definition trim (s : string) : string :=
  string_of_list_ascii (reverse (trim_start (reverse (trim_start (chars s))))).

(** [['low', 'medium', 'high'].includes(priority)]. *)
Definition is_priority (p : string) : bool :=
  String.eqb p "low" || String.eqb p "medium" || String.eqb p "high".

(** The [errors] array of [validateTodo] when the last [if] is reached. *)
Definition validateTodo_errors (body : PartialTodo.t) : list string :=
  (match PartialTodo.title body with
   | Some title =>
       if negb (truthy title) || (String.length (trim title) =? 0)%nat
       then ["Title is required"] else []
   | None => ["Title is required"]
   end
   ++ match PartialTodo.title body with
      | Some title =>
          if truthy title && (200 <? String.length title)%nat
          then ["Title must be less than 200 characters"] else []
      | None => []
      end
   ++ match PartialTodo.priority body with
      | Some priority =>
          if truthy priority && negb (is_priority priority)
          then ["Priority must be low, medium, or high"] else []
      | None => []
      end)%list.

(** [validateTodo]. *)
Definition validateTodo (body : PartialTodo.t) : Validated :=
  let errors := validateTodo_errors body in
  if (0 <? List.length errors)%nat then ValidationFailed errors else Next.

Definition validateCategory_errors (body : PartialCategory.t) : list string :=
  (match PartialCategory.name body with
   | Some name =>
       if negb (truthy name) || (String.length (trim name) =? 0)%nat
       then ["Category name is required"] else []
   | None => ["Category name is required"]
   end
   ++ match PartialCategory.name body with
      | Some name =>
          if truthy name && (50 <? String.length name)%nat
          then ["Category name must be less than 50 characters"] else []
      | None => []
      end)%list.

(** [validateCategory]. *)
Definition validateCategory (body : PartialCategory.t) : Validated :=
  let errors := validateCategory_errors body in
  if (0 <? List.length errors)%nat then ValidationFailed errors else Next.

(** ** The errors of the specification, as replies *)

Definition NotFoundError {A} (r : Reply A) : Prop :=
  r = Failure 404 "Todo not found" ∨ r = Failure 404 "Category not found".

Definition DuplicateError {A} (r : Reply A) : Prop :=
  r = Failure 400 "Category already exists"
  ∨ r = Failure 400 "Category name already exists".

(** ** The filter of the specification

    The predicate as the specification words it, to compare [where_matches]
    with: [search] asks for an occurrence of the term, case folded, in the
    title or in the description; the other three ask for equality. *)

Fixpoint starts_with (needle hay : list ascii) : bool :=
  match needle, hay with
  | [], _ => true
  | _ :: _, [] => false
  | c :: needle', d :: hay' => Ascii.eqb c d && starts_with needle' hay'
  end.

Fixpoint occurs_in (needle hay : list ascii) : bool :=
  starts_with needle hay
  || match hay with
     | [] => false
     | _ :: hay' => occurs_in needle hay'
     end.

(** The case-insensitive substring test. *)
Definition contains_ci (term value : string) : bool :=
  occurs_in (to_lower <$> chars term) (to_lower <$> chars value).

Section Specification.
Context `{Engine}.

Definition spec_matches (q : Query.t) (t : Todo.t) : bool :=
  match Query.search q with
  | Some s =>
      if truthy s
      then contains_ci s (Todo.title t)
           || match Todo.description t with
              | Some d => contains_ci s d
              | None => false
              end
      else true
  | None => true
  end
  && match Query.category q with
     | Some c =>
         match int_literal c with
         | Some k => bool_decide (Todo.category_id t = Some k)
         | None => false
         end
     | None => true
     end
  && match Query.priority q with
     | Some p => String.eqb (Todo.priority t) p
     | None => true
     end
  && match Query.completed q with
     | Some c => Bool.eqb (Todo.completed t) (String.eqb c "true")
     | None => true
     end.

End Specification.

(** The characters that [LIKE] reads as other than themselves. *)
Definition like_special (c : ascii) : bool :=
  Ascii.eqb c "%" || Ascii.eqb c "_" || Ascii.eqb c "\".

Definition plain_term (s : string) : bool :=
  forallb (λ c, negb (like_special c)) (chars s).

(** ** Notions the properties are stated with *)

Section Page.
Context `{Engine}.

(** The rows of a page, before their categories are attached. *)
Definition window (q : Query.t) (db : DB) : list (Z * Todo.t) :=
  take (Z.to_nat (default 10 (Query.limit q)))
    (drop (Z.to_nat ((default 1 (Query.page q) - 1) * default 10 (Query.limit q)))
       (order_by_createdAt_desc (matching (build_where q) db))).

Definition page_of (q : Query.t) (db : DB) : TodoPage :=
  {| data := include_category db <$> window q db;
     pagination :=
       {| total := Z.of_nat (List.length (matching (build_where q) db));
          current_page := default 1 (Query.page q);
          per_page := default 10 (Query.limit q);
          total_pages :=
            Math_ceil_div (Z.of_nat (List.length (matching (build_where q) db)))
              (default 10 (Query.limit q)) |} |}.

End Page.

(** The strings of [v] fit their columns. *)
Definition fits (v : PartialTodo.t) : bool :=
  match stored_string (PartialTodo.title v), stored_string (PartialTodo.priority v) with
  | Some _, Some _ => true
  | _, _ => false
  end.

(** The engine takes the window: [LIMIT] and [OFFSET] are not negative and
    within the range of [BIGINT]. *)
Definition window_taken (limit offset : Z) : bool :=
  (0 <=? limit) && (limit <=? BIGINT_MAX) && (0 <=? offset) && (offset <=? BIGINT_MAX).

(** The store takes the fields of [v]: its strings fit their columns and
    its category, if any, is stored. *)
Definition accepted (db : DB) (v : PartialTodo.t) : bool :=
  match stored_string (PartialTodo.title v), stored_string (PartialTodo.priority v) with
  | Some _, Some _ => references_Category db (default None (PartialTodo.category_id v))
  | _, _ => false
  end.

(** What the bulk update of [deleteCategory] does to one row. *)
Definition detach (id : Z) (t : Todo.t) : Todo.t :=
  if bool_decide (Todo.category_id t = Some id)
  then Todo_set (only_category_id None) t
  else t.

(** Every stored todo is in no category or in a stored one. *)
Definition referential_integrity (db : DB) : Prop :=
  map_Forall (λ _ t, references_Category db (Todo.category_id t) = true) (Todos db).

(** The claim as it is stated: of two items, the earlier was created later,
    or they were created at the same time and the earlier has the smaller
    [id]. *)
Definition ties_by_id (p : TodoPage) : Prop :=
  ∀ (i j : nat) (a b : TodoJson.t),
    (i < j)%nat → data p !! i = Some a → data p !! j = Some b →
    Todo.createdAt (TodoJson.todo b) < Todo.createdAt (TodoJson.todo a)
    ∨ (Todo.createdAt (TodoJson.todo a) = Todo.createdAt (TodoJson.todo b)
       ∧ TodoJson.id a < TodoJson.id b).

(** The claim as it is stated: after the update of a stored todo, each of
    its six fields is the request's when the request has it, and what it was
    otherwise. *)
Definition every_field_merged (id : Z) (body : PartialTodo.t) (db : DB) : Prop :=
  ∀ t, Todos db !! id = Some t →
    ∃ t', Todos (updateTodo id body db).2 !! id = Some t'
      ∧ Todo.title t' = default (Todo.title t) (PartialTodo.title body)
      ∧ Todo.description t' = default (Todo.description t) (PartialTodo.description body)
      ∧ Todo.category_id t' = default (Todo.category_id t) (PartialTodo.category_id body)
      ∧ Todo.priority t' = default (Todo.priority t) (PartialTodo.priority body)
      ∧ Todo.due_date t' = default (Todo.due_date t) (PartialTodo.due_date body)
      ∧ Todo.completed t' = default (Todo.completed t) (PartialTodo.completed body).

(** No row has a key beyond the sequence of its table: the next value of
    the sequence is the key of no row. *)
Definition sequences_ahead (db : DB) : Prop :=
  map_Forall (λ k _, k ≤ Todos_seq db) (Todos db)
  ∧ map_Forall (λ k _, k ≤ Categories_seq db) (Categories db).

(** Every stored string fits its [VARCHAR(255)] column. *)
Definition strings_fit (db : DB) : Prop :=
  map_Forall (λ _ t, (String.length (Todo.title t) ≤ 255)%nat
                     ∧ (String.length (Todo.priority t) ≤ 255)%nat) (Todos db)
  ∧ map_Forall (λ _ c, (String.length (Category.name c) ≤ 255)%nat
                       ∧ (String.length (Category.color c) ≤ 255)%nat) (Categories db).

(** What the store is after any run of the controllers from the empty
    store. *)
Definition consistent (db : DB) : Prop :=
  sequences_ahead db ∧ strings_fit db ∧ referential_integrity db.

(** No two categories have the same name. *)
Definition names_unique (db : DB) : Prop :=
  ∀ k1 k2 c1 c2,
    Categories db !! k1 = Some c1 → Categories db !! k2 = Some c2 →
    Category.name c1 = Category.name c2 → k1 = k2.

(** No two todos were created at the same time. *)
Definition distinct_createdAt (db : DB) : Prop :=
  ∀ k1 k2 t1 t2,
    Todos db !! k1 = Some t1 → Todos db !! k2 = Some t2 →
    Todo.createdAt t1 = Todo.createdAt t2 → k1 = k2.

(** The items of a reply of [getTodos]; none when it is a failure. *)
Definition items (r : Reply TodoPage * DB) : list TodoJson.t :=
  match r.1 with
  | Success _ p _ => data p
  | Failure _ _ => []
  end.

(** The request [q] for page [k] of [limit] rows. *)
Definition on_page (q : Query.t) (k limit : Z) : Query.t :=
  Query.mk (Some k) (Some limit) (Query.search q) (Query.category q)
    (Query.priority q) (Query.completed q).

(** ASCII text: every code unit is below 128. *)
Definition ascii_text (s : string) : bool :=
  forallb (λ c, (N_of_ascii c <? 128)%N) (chars s).

(** The title and the description of a todo are ASCII text. *)
Definition ascii_todo (t : Todo.t) : bool :=
  ascii_text (Todo.title t)
  && match Todo.description t with Some d => ascii_text d | None => true end.

(** The search of the request [q] in the store [db] is one of ASCII text:
    there is no search term, or the term and every stored title and
    description are ASCII text. *)
Definition ascii_search (q : Query.t) (db : DB) : Prop :=
  match where_search (build_where q) with
  | Some s => ascii_text s = true ∧ map_Forall (λ _ t, ascii_todo t = true) (Todos db)
  | None => True
  end.

(** A string of white space only. *)
Definition blank (s : string) : bool := forallb is_white_space (chars s).

(** The object that [createTodo] hands to [create], lines 106 to 113. *)
Definition createTodo_values (body : PartialTodo.t) : PartialTodo.t :=
  {| PartialTodo.title := PartialTodo.title body;
     PartialTodo.description := PartialTodo.description body;
     PartialTodo.category_id := PartialTodo.category_id body;
     PartialTodo.priority := Some (or_else (PartialTodo.priority body) "medium");
     PartialTodo.due_date := Some (or_null (PartialTodo.due_date body));
     PartialTodo.completed := Some false |}.

(** The row that [create] fills in. *)
Definition new_todo (now : Z) : Todo.t :=
  {| Todo.title := ""; Todo.description := None;
     Todo.completed := false; Todo.priority := "medium";
     Todo.due_date := None; Todo.category_id := None;
     Todo.createdAt := now |}.

(** Some stored category has the name [name]. *)
Definition name_taken (db : DB) (name : string) : bool :=
  bool_decide (is_Some (head (filter (λ i : Z * Category.t, Category.name i.2 = name)
                                (map_to_list (Categories db))))).

(** The object that [createCategory] hands to [create]. *)
Definition createCategory_values (body : PartialCategory.t) : PartialCategory.t :=
  {| PartialCategory.name := PartialCategory.name body;
     PartialCategory.color := Some (or_else (PartialCategory.color body) "#1890ff") |}.

(** The object that [updateCategory] hands to [update]. *)
Definition updateCategory_values (category : Category.t) (body : PartialCategory.t)
  : PartialCategory.t :=
  {| PartialCategory.name :=
       Some (or_else (PartialCategory.name body) (Category.name category));
     PartialCategory.color :=
       Some (or_else (PartialCategory.color body) (Category.color category)) |}.

(** The name that [updateCategory] looks up before it writes: the one of
    the request, when it is not empty and not the category's own. *)
Definition new_name (category : Category.t) (body : PartialCategory.t) : option string :=
  match PartialCategory.name body with
  | Some name =>
      if truthy name && negb (String.eqb name (Category.name category))
      then Some name else None
  | None => None
  end.

(** ** Two engines

    Both read a literal of decimal digits, with or without a minus sign,
    that is within the range of [INTEGER], and
    both keep the promise of [ORDER BY "createdAt" DESC]; among rows of equal
    [createdAt] the first returns the smaller [id] first and the second the
    larger. *)

Definition digit (c : ascii) : option Z :=
  let n := Z.of_N (N_of_ascii c) in
  if (48 <=? n) && (n <=? 57) then Some (n - 48) else None.

Fixpoint digits (acc : Z) (s : list ascii) : option Z :=
  match s with
  | [] => Some acc
  | c :: s' => match digit c with Some d => digits (10 * acc + d) s' | None => None end
  end.

Definition decimal (s : string) : option Z :=
  match chars s with
  | [] => None
  | c :: s' =>
      if Ascii.eqb c "-"
      then match s' with [] => None | _ :: _ => Z.opp <$> digits 0 s' end
      else digits 0 (c :: s')
  end.

Definition decimal_literal (s : string) : option Z :=
  match decimal s with
  | Some n => if bool_decide (INTEGER n) then Some n else None
  | None => None
  end.

Definition createdAt_desc_id_asc (a b : Z * Todo.t) : Prop :=
  Todo.createdAt b.2 < Todo.createdAt a.2
  ∨ (Todo.createdAt b.2 = Todo.createdAt a.2 ∧ a.1 ≤ b.1).

Definition createdAt_desc_id_desc (a b : Z * Todo.t) : Prop :=
  Todo.createdAt b.2 < Todo.createdAt a.2
  ∨ (Todo.createdAt b.2 = Todo.createdAt a.2 ∧ b.1 ≤ a.1).

#[global] Instance createdAt_desc_id_asc_dec : RelDecision createdAt_desc_id_asc.
Proof. intros a b. unfold createdAt_desc_id_asc. apply _. Defined.
#[global] Instance createdAt_desc_id_desc_dec : RelDecision createdAt_desc_id_desc.
Proof. intros a b. unfold createdAt_desc_id_desc. apply _. Defined.

#[global] Instance createdAt_desc_id_asc_total : Total createdAt_desc_id_asc.
Proof. intros a b. unfold createdAt_desc_id_asc. lia. Qed.
#[global] Instance createdAt_desc_id_desc_total : Total createdAt_desc_id_desc.
Proof. intros a b. unfold createdAt_desc_id_desc. lia. Qed.

(** An engine that sorts by a total order finer than [createdAt]
    descending. *)
Definition engine_of (R : relation (Z * Todo.t)) `{!RelDecision R, !Total R}
  (finer : ∀ a b, R a b → createdAt_desc a b) : Engine.
Proof.
  refine {| int_literal := decimal_literal;
            order_by_createdAt_desc := merge_sort R |}.
  - intros l. apply merge_sort_Permutation.
  - intros l. generalize (Sorted_merge_sort R l).
    induction 1 as [|a l' Hl IH Hhd]; constructor; [exact IH|].
    destruct Hhd; constructor; auto.
Defined.

Definition engine_id_asc : Engine.
Proof.
  apply (engine_of createdAt_desc_id_asc).
  unfold createdAt_desc_id_asc, createdAt_desc. lia.
Defined.

Definition engine_id_desc : Engine.
Proof.
  apply (engine_of createdAt_desc_id_desc).
  unfold createdAt_desc_id_desc, createdAt_desc. lia.
Defined.

(** A collation that compares names code unit by code unit. *)
Definition name_le_bytes (a b : Z * Category.t) : Prop :=
  String.leb (Category.name a.2) (Category.name b.2) = true.

#[global] Instance name_le_bytes_dec : RelDecision name_le_bytes.
Proof. intros a b. unfold name_le_bytes. apply _. Defined.

#[global] Instance name_le_bytes_total : Total name_le_bytes.
Proof. intros a b. unfold name_le_bytes. apply String.leb_total. Qed.

Definition name_order_bytes : NameOrder.
Proof.
  refine {| name_le := λ a b, String.leb a b = true;
            order_by_name_asc := merge_sort name_le_bytes |}.
  - intros l. apply merge_sort_Permutation.
  - intros l. apply (Sorted_merge_sort name_le_bytes).
Defined.

#[global] Instance sequences_ahead_dec (db : DB) : Decision (sequences_ahead db).
Proof. unfold sequences_ahead. apply _. Defined.

#[global] Instance consistent_dec (db : DB) : Decision (consistent db).
Proof. unfold consistent, sequences_ahead, strings_fit, referential_integrity. apply _. Defined.

(** ** Requests and stores to try the controllers on *)

Definition work : PartialCategory.t :=
  {| PartialCategory.name := Some "Work"; PartialCategory.color := Some "#0000ff" |}.

Definition home : PartialCategory.t :=
  {| PartialCategory.name := Some "Home"; PartialCategory.color := None |}.

Definition renamed (name : string) : PartialCategory.t :=
  {| PartialCategory.name := Some name; PartialCategory.color := None |}.

Definition titled (title : string) : PartialTodo.t :=
  {| PartialTodo.title := Some title; PartialTodo.description := None;
     PartialTodo.category_id := None; PartialTodo.priority := None;
     PartialTodo.due_date := None; PartialTodo.completed := None |}.

Definition buy_50_apples : PartialTodo.t :=
  {| PartialTodo.title := Some "Buy 50 apples"; PartialTodo.description := None;
     PartialTodo.category_id := None; PartialTodo.priority := None;
     PartialTodo.due_date := None; PartialTodo.completed := None |}.

Definition done_already : PartialTodo.t :=
  {| PartialTodo.title := Some "done already"; PartialTodo.description := None;
     PartialTodo.category_id := None; PartialTodo.priority := None;
     PartialTodo.due_date := None; PartialTodo.completed := Some true |}.

Definition into_category (c : Z) : PartialTodo.t :=
  {| PartialTodo.title := None; PartialTodo.description := None;
     PartialTodo.category_id := Some (Some c); PartialTodo.priority := None;
     PartialTodo.due_date := None; PartialTodo.completed := None |}.

(** The request [{}]. *)
Definition no_fields : PartialTodo.t :=
  {| PartialTodo.title := None; PartialTodo.description := None;
     PartialTodo.category_id := None; PartialTodo.priority := None;
     PartialTodo.due_date := None; PartialTodo.completed := None |}.

(** A request whose title is 256 times the letter a. *)
Definition long_title : PartialTodo.t :=
  {| PartialTodo.title := Some (string_of_list_ascii (replicate 256 "a"%char));
     PartialTodo.description := None; PartialTodo.category_id := None;
     PartialTodo.priority := None; PartialTodo.due_date := None;
     PartialTodo.completed := None |}.

Definition done_in_category (c : Z) : PartialTodo.t :=
  {| PartialTodo.title := None; PartialTodo.description := None;
     PartialTodo.category_id := Some (Some c); PartialTodo.priority := None;
     PartialTodo.due_date := None; PartialTodo.completed := Some true |}.

Definition second_in_category (c : Z) : PartialTodo.t :=
  {| PartialTodo.title := Some "second"; PartialTodo.description := None;
     PartialTodo.category_id := Some (Some c); PartialTodo.priority := None;
     PartialTodo.due_date := None; PartialTodo.completed := None |}.

(** A request with a title and the number [d] as [due_date]. *)
Definition due (d : Z) : PartialTodo.t :=
  {| PartialTodo.title := Some "due"; PartialTodo.description := None;
     PartialTodo.category_id := None; PartialTodo.priority := None;
     PartialTodo.due_date := Some (Some d); PartialTodo.completed := None |}.

Definition search_for (s : string) : Query.t :=
  Query.mk None None (Some s) None None None.

Definition page_query (page limit : Z) : Query.t :=
  Query.mk (Some page) (Some limit) None None None None.

(** The request [GET /todos?priority=medium&completed=yes]. *)
Definition medium_yes : Query.t :=
  Query.mk None None None None (Some "medium") (Some "yes").

(** The request [GET /todos] without parameters. *)
Definition everything : Query.t := Query.mk None None None None None None.

(** One todo, "first" with [id] 1, created at time 100. *)
Definition one_todo : DB := (createTodo (titled "first") 100 empty_db).2.

(** Two todos created at the same millisecond, with [id] 1 and 2. *)
Definition two_todos : DB :=
  (createTodo (titled "second") 100 (createTodo (titled "first") 100 empty_db).2).2.

(** Two todos created one after the other, with [id] 1 and 2. *)
Definition one_after_another : DB :=
  (createTodo (titled "second") 200 (createTodo (titled "first") 100 empty_db).2).2.

(** One category, "Work" with [id] 1, and one todo, "first" with [id] 1 and
    no category. *)
Definition work_db : DB :=
  (createTodo (titled "first") 100 (createCategory work empty_db).2).2.

(** [work_db] after its todo is moved into "Work". *)
Definition first_in_work : DB :=
  (updateTodo 1 (done_in_category 1) work_db).2.

(** "Work" with [id] 1 and "Home" with [id] 2. *)
Definition two_categories : DB :=
  (createCategory home (createCategory work empty_db).2).2.

(** * Properties *)

(** ** [ILIKE] on a term without special characters is the substring test *)

Lemma like_percent (p s : list ascii) :
  like ("%"%char :: p) s
  = like p s || match s with [] => false | _ :: s' => like ("%"%char :: p) s' end.
Proof. destruct s; reflexivity. Qed.

Lemma like_plain (c : ascii) (p s : list ascii) :
  like_special c = false →
  like (c :: p) s
  = match s with [] => false | d :: s' => Ascii.eqb c d && like p s' end.
Proof.
  unfold like_special. intros Hc.
  apply orb_false_elim in Hc as [Hc Hbs]. apply orb_false_elim in Hc as [Hpc Hus].
  simpl. rewrite Hpc, Hus, Hbs. reflexivity.
Qed.

Lemma like_percent_only (s : list ascii) : like ["%"%char] s = true.
Proof.
  induction s as [|d s IH]; [reflexivity|].
  rewrite like_percent, IH. apply orb_true_r.
Qed.

Lemma like_plain_prefix (p s : list ascii) :
  forallb (λ c, negb (like_special c)) p = true →
  like (p ++ ["%"%char]) s = starts_with p s.
Proof.
  revert s. induction p as [|c p IH]; intros s Hp.
  - apply like_percent_only.
  - simpl in Hp. apply andb_prop in Hp as [Hc Hp].
    apply negb_true_iff in Hc.
    rewrite <- app_comm_cons.
    rewrite (like_plain c) by done.
    destruct s as [|d s]; [reflexivity|]. simpl. by rewrite IH.
Qed.

Lemma like_plain_infix (p s : list ascii) :
  forallb (λ c, negb (like_special c)) p = true →
  like ("%"%char :: p ++ ["%"%char]) s = occurs_in p s.
Proof.
  intros Hp. induction s as [|d s IH].
  - rewrite like_percent, like_plain_prefix by done. by destruct p.
  - rewrite like_percent, like_plain_prefix, IH by done. by destruct p.
Qed.

Lemma like_special_to_lower (c : ascii) : like_special (to_lower c) = like_special c.
Proof. destruct c as [[] [] [] [] [] [] [] []]; reflexivity. Qed.

Lemma chars_append (s1 s2 : string) : chars (s1 ++ s2) = (chars s1 ++ chars s2)%list.
Proof.
  unfold chars. induction s1 as [|c s1 IH]; [reflexivity|].
  simpl. by rewrite <- IH.
Qed.

Lemma iLike_contains (s value : string) :
  plain_term s = true → iLike ("%" ++ s ++ "%") value = contains_ci s value.
Proof.
  unfold plain_term, iLike, contains_ci. intros Hs.
  rewrite !chars_append, !fmap_app. change (to_lower <$> chars "%") with ["%"%char].
  rewrite <- app_comm_cons, app_nil_l, app_comm_cons.
  apply like_plain_infix.
  rewrite forallb_forall in Hs |- *. intros c Hc.
  apply list_elem_of_In, list_elem_of_fmap in Hc as (c' & -> & Hc').
  rewrite like_special_to_lower. apply Hs. by apply list_elem_of_In.
Qed.

Lemma truthy_false (s : string) : truthy s = false → s = "".
Proof. unfold truthy. intros Hs. apply negb_false_iff in Hs. by apply String.eqb_eq. Qed.

(** X28.  On ASCII text, where the search term has none of the characters
    [%], [_] and backslash, and neither [category] nor [priority] is the
    empty string, the condition that [getTodos] builds is the filter of the
    specification. *)
Lemma where_matches_spec `{Engine} (q : Query.t) (t : Todo.t) :
  match Query.search q with
  | Some s => plain_term s = true ∧ ascii_text s = true
  | None => True
  end →
  ascii_todo t = true →
  Query.category q ≠ Some "" →
  Query.priority q ≠ Some "" →
  where_matches (build_where q) t = spec_matches q t.
Proof.
  destruct q as [pg lim srch cat prio compl]; simpl.
  intros Hsearch _ Hcat Hprio. unfold where_matches, spec_matches; simpl.
  f_equal; [f_equal; [f_equal|]|].
  - destruct srch as [s|]; simpl; [|reflexivity].
    destruct Hsearch as [Hplain _].
    destruct (truthy s) eqn:Hs; simpl; [|reflexivity].
    rewrite !iLike_contains by done.
    destruct (Todo.description t); by rewrite ?iLike_contains.
  - destruct cat as [c|]; [|reflexivity].
    destruct (truthy c) eqn:Hc; [reflexivity|].
    apply truthy_false in Hc. congruence.
  - destruct prio as [p|]; [|reflexivity].
    destruct (truthy p) eqn:Hp; [reflexivity|].
    apply truthy_false in Hp. congruence.
  - by destruct compl.
Qed.

(** ** C1: the search term is read as a [LIKE] pattern *)

(** C1, at the request [GET /todos?search=50%25] on a store whose one todo
    is titled "Buy 50 apples": the filter of the specification does not
    match the todo, since "50%" occurs neither in its title nor in its
    description, and yet [getTodos] returns it, whatever the engine.  The
    term is put between two [%] as it is, and its own [%] is one more
    wildcard of the pattern. *)
Theorem getTodos_search_wildcard `{Engine} :
  let db := (createTodo buy_50_apples 0 empty_db).2 in
  let q := search_for "50%" in
  ∃ t, Todos db = {[ 1 := t ]}
       ∧ spec_matches q t = false
       ∧ where_matches (build_where q) t = true
       ∧ (getTodos q db).1
         = Success 200
             {| data := [ {| TodoJson.id := 1; TodoJson.todo := t;
                             TodoJson.category := None |} ];
                pagination := {| total := 1; current_page := 1; per_page := 10;
                                 total_pages := Some 1 |} |}
             None.
Proof.
  eexists. split; [reflexivity|]. split; [reflexivity|]. split; [reflexivity|].
  unfold getTodos, try_catch, Todo_findAndCountAll, bind, get, ret, matching. simpl.
  match goal with |- context [filter ?P ?l] =>
    replace (filter P l)
      with [(1, Todo.mk "Buy 50 apples" None false "medium" None None 0)]
      by (vm_compute; reflexivity)
  end.
  pose proof (order_by_Permutation
    [(1, Todo.mk "Buy 50 apples" None false "medium" None None 0)]) as Hperm.
  apply Permutation_singleton_r in Hperm. rewrite Hperm. reflexivity.
Qed.

(** ** The list operation *)

Section Listing.
Context `{Engine}.

(** [getTodos] fails exactly when the engine refuses the statement, and
    replies with [page_of] otherwise; it never writes. *)
Lemma getTodos_eq (q : Query.t) (db : DB) :
  getTodos q db
  = (if where_well_typed (build_where q)
        && window_taken (default 10 (Query.limit q))
             ((default 1 (Query.page q) - 1) * default 10 (Query.limit q))
     then Success 200 (page_of q db) None
     else Failure 500 "Error fetching todos",
     db).
Proof.
  unfold getTodos, try_catch, Todo_findAndCountAll, bind, get, ret, throw, page_of, window,
    window_taken.
  set (limit := default 10 (Query.limit q)).
  set (offset := (default 1 (Query.page q) - 1) * limit).
  destruct (where_well_typed (build_where q)); cbn [negb andb]; [|reflexivity].
  destruct (Z.ltb_spec limit 0); destruct (Z.leb_spec 0 limit); try lia;
    cbn [orb andb]; [reflexivity|].
  destruct (Z.ltb_spec offset 0); destruct (Z.leb_spec 0 offset); try lia;
    cbn [orb andb]; [by rewrite andb_false_r|].
  destruct (Z.ltb_spec BIGINT_MAX limit); destruct (Z.leb_spec limit BIGINT_MAX);
    try lia; cbn [orb andb]; [reflexivity|].
  destruct (Z.ltb_spec BIGINT_MAX offset); destruct (Z.leb_spec offset BIGINT_MAX);
    try lia; reflexivity.
Qed.

Lemma window_taken_safe (page limit : Z) :
  0 < page → 0 < limit →
  limit ≤ MAX_SAFE_INTEGER →
  (page - 1) * limit ≤ MAX_SAFE_INTEGER →
  window_taken limit ((page - 1) * limit) = true.
Proof.
  unfold window_taken, MAX_SAFE_INTEGER, BIGINT_MAX. intros Hp Hl Hlim Hoff.
  assert (0 ≤ (page - 1) * limit) by (apply Z.mul_nonneg_nonneg; lia).
  rewrite !andb_true_iff, !Z.leb_le. lia.
Qed.

Lemma getTodos_valid (q : Query.t) (db : DB) :
  0 < default 1 (Query.page q) →
  0 < default 10 (Query.limit q) →
  default 10 (Query.limit q) ≤ MAX_SAFE_INTEGER →
  (default 1 (Query.page q) - 1) * default 10 (Query.limit q) ≤ MAX_SAFE_INTEGER →
  where_well_typed (build_where q) = true →
  getTodos q db = (Success 200 (page_of q db) None, db).
Proof.
  intros Hp Hl Hlim Hoff Hw. by rewrite getTodos_eq, Hw, window_taken_safe.
Qed.

Lemma getTodos_Success_inv (q : Query.t) (db db' : DB) st p msg :
  getTodos q db = (Success st p msg, db') → p = page_of q db.
Proof.
  rewrite getTodos_eq.
  destruct (_ && _); intros Heq; inversion Heq; reflexivity.
Qed.

Lemma length_window (q : Query.t) (db : DB) :
  0 ≤ default 10 (Query.limit q) →
  Z.of_nat (List.length (window q db)) ≤ default 10 (Query.limit q).
Proof. intros Hl. unfold window. rewrite length_take. lia. Qed.

Lemma length_ordered (q : Query.t) (db : DB) :
  List.length (order_by_createdAt_desc (matching (build_where q) db))
  = List.length (matching (build_where q) db).
Proof. apply Permutation_length, order_by_Permutation. Qed.

Lemma window_beyond (q : Query.t) (db : DB) :
  0 ≤ (default 1 (Query.page q) - 1) * default 10 (Query.limit q) →
  Z.of_nat (List.length (matching (build_where q) db))
    ≤ (default 1 (Query.page q) - 1) * default 10 (Query.limit q) →
  window q db = [].
Proof.
  intros Hoff Hle. unfold window.
  rewrite drop_ge; [by rewrite take_nil|]. rewrite length_ordered. lia.
Qed.

End Listing.

Lemma Math_ceil_div_spec (a b tp : Z) :
  0 < b → Math_ceil_div a b = Some tp → (tp - 1) * b < a ≤ tp * b.
Proof.
  unfold Math_ceil_div. intros Hb.
  destruct (Z.eqb_spec b 0); [lia|]. intros [= <-].
  pose proof (Z.div_mod (- a) b ltac:(lia)).
  pose proof (Z.mod_pos_bound (- a) b Hb). nia.
Qed.

(** ** C2: the pager *)

(** C2.  For [page] and [limit] positive, each 1 and 10 when the request
    leaves it out, with [limit] and [(page - 1) * limit] no more than
    [MAX_SAFE_INTEGER], and a filter the engine takes, [getTodos] succeeds
    and writes nothing; its items are the [limit] rows that follow the first
    [(page - 1) * limit] of the ordered matching rows, with their
    categories; they are at most [limit]; and they are none when
    [(page - 1) * limit] is the number of matching rows or more. *)
Theorem getTodos_pager `{Engine} (q : Query.t) (db : DB) :
  0 < default 1 (Query.page q) →
  0 < default 10 (Query.limit q) →
  default 10 (Query.limit q) ≤ MAX_SAFE_INTEGER →
  (default 1 (Query.page q) - 1) * default 10 (Query.limit q) ≤ MAX_SAFE_INTEGER →
  where_well_typed (build_where q) = true →
  ∃ p, getTodos q db = (Success 200 p None, db)
    ∧ data p
      = (include_category db
           <$> take (Z.to_nat (default 10 (Query.limit q)))
                 (drop (Z.to_nat ((default 1 (Query.page q) - 1)
                                  * default 10 (Query.limit q)))
                    (order_by_createdAt_desc (matching (build_where q) db))))
    ∧ Z.of_nat (List.length (data p)) ≤ default 10 (Query.limit q)
    ∧ (Z.of_nat (List.length (matching (build_where q) db))
         ≤ (default 1 (Query.page q) - 1) * default 10 (Query.limit q) →
       data p = []).
Proof.
  intros Hp Hl Hlim Hoff Hw. exists (page_of q db).
  split; [by apply getTodos_valid|]. split; [reflexivity|]. split.
  - simpl. rewrite length_fmap. apply length_window. lia.
  - intros Hle. simpl. rewrite window_beyond; [reflexivity|nia|done].
Qed.

Lemma getTodos_pager_witness :
  ∃ p, @getTodos engine_id_asc (page_query 2 1) two_todos = (Success 200 p None, two_todos)
    ∧ data p
      = (include_category two_todos
           <$> take 1 (drop 1 (@order_by_createdAt_desc engine_id_asc
                                 (@matching engine_id_asc
                                    (build_where (page_query 2 1)) two_todos))))
    ∧ Z.of_nat (List.length (data p)) ≤ 1
    ∧ (Z.of_nat (List.length (@matching engine_id_asc
                                (build_where (page_query 2 1)) two_todos)) ≤ 1 →
       data p = []).
Proof.
  apply (@getTodos_pager engine_id_asc (page_query 2 1) two_todos);
    [reflexivity | reflexivity | simpl; unfold MAX_SAFE_INTEGER; lia
    | simpl; unfold MAX_SAFE_INTEGER; lia | reflexivity].
Defined.

(** ** C3: the pagination block *)

(** C3.  For a request as in C2, with [page] and [limit] positive and
    [limit] and [(page - 1) * limit] no more than [MAX_SAFE_INTEGER],
    [total] is the number of rows that match the filter, whatever the
    window; [total_pages] is the quotient of [total] by [per_page] rounded
    up, the one integer [tp] with
    [(tp - 1) * per_page < total ≤ tp * per_page]; and when [total] is 0,
    [total_pages] is 0 and there are no items. *)
Theorem getTodos_total_pages `{Engine} (q : Query.t) (db : DB) :
  0 < default 1 (Query.page q) →
  0 < default 10 (Query.limit q) →
  default 10 (Query.limit q) ≤ MAX_SAFE_INTEGER →
  (default 1 (Query.page q) - 1) * default 10 (Query.limit q) ≤ MAX_SAFE_INTEGER →
  where_well_typed (build_where q) = true →
  ∃ p tp, getTodos q db = (Success 200 p None, db)
    ∧ total (pagination p) = Z.of_nat (List.length (matching (build_where q) db))
    ∧ per_page (pagination p) = default 10 (Query.limit q)
    ∧ total_pages (pagination p) = Some tp
    ∧ (tp - 1) * per_page (pagination p) < total (pagination p)
        ≤ tp * per_page (pagination p)
    ∧ (total (pagination p) = 0 → tp = 0 ∧ data p = []).
Proof.
  intros Hp Hl Hlim Hoff Hw.
  destruct (Math_ceil_div (Z.of_nat (List.length (matching (build_where q) db)))
              (default 10 (Query.limit q))) as [tp|] eqn:Htp.
  2: { unfold Math_ceil_div in Htp. destruct (Z.eqb_spec (default 10 (Query.limit q)) 0);
       [lia|done]. }
  exists (page_of q db), tp.
  split; [by apply getTodos_valid|]. split; [reflexivity|]. split; [reflexivity|].
  split; [exact Htp|].
  pose proof (Math_ceil_div_spec _ _ _ Hl Htp) as Hceil.
  split; [exact Hceil|]. simpl. intros H0. split; [nia|].
  rewrite window_beyond; [reflexivity|nia|nia].
Qed.

Lemma getTodos_total_pages_witness :
  ∃ p tp, @getTodos engine_id_asc (page_query 2 1) two_todos = (Success 200 p None, two_todos)
    ∧ total (pagination p)
      = Z.of_nat (List.length (@matching engine_id_asc
                                 (build_where (page_query 2 1)) two_todos))
    ∧ per_page (pagination p) = 1
    ∧ total_pages (pagination p) = Some tp
    ∧ (tp - 1) * per_page (pagination p) < total (pagination p)
        ≤ tp * per_page (pagination p)
    ∧ (total (pagination p) = 0 → tp = 0 ∧ data p = []).
Proof.
  apply (@getTodos_total_pages engine_id_asc (page_query 2 1) two_todos);
    [reflexivity | reflexivity | simpl; unfold MAX_SAFE_INTEGER; lia
    | simpl; unfold MAX_SAFE_INTEGER; lia | reflexivity].
Defined.

(** ** C4: the order of the items *)

#[global] Instance createdAt_desc_trans : Transitive createdAt_desc.
Proof. intros a b c. unfold createdAt_desc. lia. Qed.

Lemma StronglySorted_lookup {A} (R : relation A) (l : list A) (i j : nat) (a b : A) :
  StronglySorted R l → (i < j)%nat → l !! i = Some a → l !! j = Some b → R a b.
Proof.
  intros Hl. revert i j. induction Hl as [|x l Hl IH Hx]; intros i j Hij Hi Hj.
  - by rewrite lookup_nil in Hi.
  - destruct j as [|j]; [lia|]. destruct i as [|i].
    + simpl in Hi, Hj. injection Hi as <-.
      rewrite Forall_forall in Hx. apply Hx. eapply list_elem_of_lookup_2, Hj.
    + simpl in Hi, Hj. apply (IH i j); [lia|done..].
Qed.

Lemma window_StronglySorted `{Engine} (q : Query.t) (db : DB) :
  StronglySorted createdAt_desc (window q db).
Proof.
  unfold window.
  set (l := order_by_createdAt_desc _).
  assert (StronglySorted createdAt_desc l) as Hl.
  { apply Sorted_StronglySorted; [apply _|apply order_by_Sorted]. }
  set (n := Z.to_nat (_ * _)). set (m := Z.to_nat _).
  rewrite <- (take_drop n l) in Hl. apply StronglySorted_app_1_r in Hl.
  rewrite <- (take_drop m (drop n l)) in Hl. by apply StronglySorted_app_1_l in Hl.
Qed.

(** C4, as stated, fails: two todos created in the same millisecond have
    ids 1 and 2, and an engine that keeps the promise of the [ORDER BY] may
    return 2 before 1. *)
Lemma getTodos_ties_by_id_counterexample :
  ∃ p, @getTodos engine_id_desc (page_query 1 10) two_todos
       = (Success 200 p None, two_todos)
     ∧ TodoJson.id <$> data p = [2; 1]
     ∧ (Todo.createdAt ∘ TodoJson.todo) <$> data p = [100; 100]
     ∧ ¬ ties_by_id p.
Proof.
  eexists. split; [reflexivity|]. split; [reflexivity|]. split; [reflexivity|].
  intros Hclaim.
  destruct (Hclaim 0%nat 1%nat _ _ (le_n 1) eq_refl eq_refl) as [Hlt|[_ Hid]].
  - vm_compute in Hlt. discriminate.
  - vm_compute in Hid. discriminate.
Qed.

(** C4, amended.  The items of a successful reply descend by [createdAt]:
    of two items, the earlier was not created before the later. *)
Theorem getTodos_createdAt_desc `{Engine} (q : Query.t) (db db' : DB) st p msg :
  getTodos q db = (Success st p msg, db') →
  ∀ (i j : nat) (a b : TodoJson.t),
    (i < j)%nat → data p !! i = Some a → data p !! j = Some b →
    Todo.createdAt (TodoJson.todo b) ≤ Todo.createdAt (TodoJson.todo a).
Proof.
  intros Hget i j a b Hij Hi Hj.
  apply getTodos_Success_inv in Hget as ->. simpl in Hi, Hj.
  rewrite list_lookup_fmap in Hi, Hj.
  destruct (window q db !! i) as [x|] eqn:Hx; [|done].
  destruct (window q db !! j) as [y|] eqn:Hy; [|done].
  simpl in Hi, Hj. injection Hi as <-. injection Hj as <-. simpl.
  exact (StronglySorted_lookup _ _ _ _ _ _ (window_StronglySorted q db) Hij Hx Hy).
Qed.

Lemma getTodos_createdAt_desc_witness :
  Todo.createdAt (Todo.mk "first" None false "medium" None None 100)
  ≤ Todo.createdAt (Todo.mk "second" None false "medium" None None 100).
Proof.
  exact (@getTodos_createdAt_desc engine_id_desc (page_query 1 10) two_todos two_todos
           200%nat _ None eq_refl 0%nat 1%nat
           (TodoJson.mk 2 (Todo.mk "second" None false "medium" None None 100) None)
           (TodoJson.mk 1 (Todo.mk "first" None false "medium" None None 100) None)
           (le_n 1) eq_refl eq_refl).
Defined.

(** ** The todo controllers, as equations *)

Ltac run :=
  unfold try_catch, bind, ret, throw, get, modify; simpl.

Lemma toggleTodoComplete_eq (id : Z) (db : DB) :
  toggleTodoComplete id db
  = match Todos db !! id with
    | None => (Failure 404 "Todo not found", db)
    | Some t =>
        let t' := Todo_set (only_completed (negb (Todo.completed t))) t in
        let db' := set_Todos (alter (Todo_set (only_completed (negb (Todo.completed t)))) id) db in
        (Success 200 (Some (include_category db' (id, t')))
           (Some "Todo status updated successfully"), db')
    end.
Proof.
  unfold toggleTodoComplete, Todo_findByPk, Todo_findByPk_include, Todo_update. run.
  destruct (Todos db !! id) as [t|] eqn:Ht; simpl; [|reflexivity].
  rewrite lookup_alter_eq, Ht. reflexivity.
Qed.

(** ** C9: toggling *)

(** C9.  [toggleTodoComplete] on an [id] of the key column's type that is
    not stored replies with the not-found failure and writes nothing.  On a
    stored todo it succeeds and stores the negation of [completed]; a second
    toggle stores the first value of [completed] again. *)
Theorem toggleTodoComplete_involution (id : Z) (db : DB) :
  (INTEGER id → Todos db !! id = None →
     NotFoundError (toggleTodoComplete id db).1
     ∧ (toggleTodoComplete id db).2 = db)
  ∧ (∀ t, Todos db !! id = Some t →
       ∃ t1 t2 d1,
         (toggleTodoComplete id db).1
           = Success 200 (Some d1) (Some "Todo status updated successfully")
         ∧ TodoJson.todo d1 = t1
         ∧ Todos (toggleTodoComplete id db).2 !! id = Some t1
         ∧ Todo.completed t1 = negb (Todo.completed t)
         ∧ Todos (toggleTodoComplete id (toggleTodoComplete id db).2).2 !! id
           = Some t2
         ∧ Todo.completed t2 = Todo.completed t).
Proof.
  split.
  - intros _ Hid. rewrite toggleTodoComplete_eq, Hid. split; [by left|reflexivity].
  - intros t Hid. rewrite toggleTodoComplete_eq, Hid. simpl.
    set (t1 := Todo_set (only_completed (negb (Todo.completed t))) t).
    assert (alter (Todo_set (only_completed (negb (Todo.completed t)))) id (Todos db)
              !! id = Some t1) as Ht1 by (by rewrite lookup_alter_eq, Hid).
    exists t1, (Todo_set (only_completed (negb (Todo.completed t1))) t1).
    eexists. split; [reflexivity|]. split; [reflexivity|]. split; [exact Ht1|].
    split; [reflexivity|].
    rewrite toggleTodoComplete_eq. simpl. rewrite Ht1. simpl.
    rewrite lookup_alter_eq, Ht1. split; [reflexivity|]. simpl.
    apply negb_involutive.
Qed.

Lemma toggleTodoComplete_involution_witness :
  (NotFoundError (toggleTodoComplete 2 one_todo).1
   ∧ (toggleTodoComplete 2 one_todo).2 = one_todo)
  ∧ ∃ t1 t2 d1,
      (toggleTodoComplete 1 one_todo).1
        = Success 200 (Some d1) (Some "Todo status updated successfully")
      ∧ TodoJson.todo d1 = t1
      ∧ Todos (toggleTodoComplete 1 one_todo).2 !! 1 = Some t1
      ∧ Todo.completed t1 = negb false
      ∧ Todos (toggleTodoComplete 1 (toggleTodoComplete 1 one_todo).2).2 !! 1
        = Some t2
      ∧ Todo.completed t2 = false.
Proof.
  split.
  - apply (proj1 (toggleTodoComplete_involution 2 one_todo)); [|reflexivity].
    unfold INTEGER. lia.
  - exact (proj2 (toggleTodoComplete_involution 1 one_todo)
             (Todo.mk "first" None false "medium" None None 100) eq_refl).
Defined.

(** ** [createTodo], by cases *)

(** Either the store refuses the row, and then the reply is the failure of
    the catch block and no table has changed; or a row is stored under a
    key that was free, and the reply carries it. *)
Lemma createTodo_cases (body : PartialTodo.t) (now : Z) (db : DB) :
  ((createTodo body now db).1 = Failure 400 "Error creating todo"
   ∧ Todos (createTodo body now db).2 = Todos db
   ∧ Categories (createTodo body now db).2 = Categories db)
  ∨ (∃ id t,
       (createTodo body now db).1
         = Success 201 (Some (include_category (createTodo body now db).2 (id, t)))
             (Some "Todo created successfully")
       ∧ Todos db !! id = None
       ∧ Todos (createTodo body now db).2 = <[id := t]> (Todos db)
       ∧ Categories (createTodo body now db).2 = Categories db
       ∧ Todo.completed t = false
       ∧ Todo.category_id t = default None (PartialTodo.category_id body)
       ∧ references_Category db (Todo.category_id t) = true).
Proof.
  unfold createTodo, Todo_create, Todo_accepts, Todo_findByPk_include, stored_string. run.
  destruct (PartialTodo.title body) as [title|]; simpl; [|by left].
  destruct (varchar255 title) as [title'|]; simpl; [|by left].
  destruct (varchar255 (or_else (PartialTodo.priority body) "medium")) as [priority'|];
    simpl; [|by left].
  destruct (references_Category db (default None (PartialTodo.category_id body))) eqn:Hfk;
    simpl; [|by left].
  case_bool_decide as Hfree; simpl; [by left|].
  right. eexists _, _. rewrite lookup_insert_eq. simpl.
  split; [reflexivity|]. split; [|split; [reflexivity|]].
  - by apply eq_None_not_Some.
  - split; [reflexivity|]. split; [reflexivity|]. split; [reflexivity|]. exact Hfk.
Qed.

(** ** C10: a created todo is not completed *)

(** C10.  Whatever the request, [completed] in it or not: the todo in a
    successful reply of [createTodo] is not completed, and every row of
    [Todos] after the call either was there before, as it is, or is not
    completed. *)
Theorem createTodo_completed_false (body : PartialTodo.t) (now : Z) (db : DB) :
  (∀ st d msg,
     (createTodo body now db).1 = Success st (Some d) msg →
     Todo.completed (TodoJson.todo d) = false)
  ∧ (∀ k t,
       Todos (createTodo body now db).2 !! k = Some t →
       Todos db !! k = Some t ∨ Todo.completed t = false).
Proof.
  destruct (createTodo_cases body now db)
    as [(Hr & Ht & _)|(id & t & Hr & Hfree & Ht & _ & Hc & _)].
  - split.
    + intros st d msg Hs. rewrite Hr in Hs. discriminate.
    + intros k t Hk. left. by rewrite <- Ht.
  - split.
    + intros st d msg Hs. rewrite Hr in Hs. injection Hs as _ <- _. exact Hc.
    + intros k t' Hk. rewrite Ht in Hk.
      destruct (decide (id = k)) as [->|Hne].
      * rewrite lookup_insert_eq in Hk. injection Hk as <-. by right.
      * rewrite lookup_insert_ne in Hk by done. by left.
Qed.

Lemma createTodo_completed_false_witness :
  Todo.completed (Todo.mk "done already" None false "medium" None None 100) = false
  ∧ (Todos one_todo !! 2
       = Some (Todo.mk "done already" None false "medium" None None 100)
     ∨ Todo.completed (Todo.mk "done already" None false "medium" None None 100)
       = false).
Proof.
  split.
  - exact (proj1 (createTodo_completed_false done_already 100 one_todo)
             201%nat
             (TodoJson.mk 2 (Todo.mk "done already" None false "medium" None None 100)
                None)
             (Some "Todo created successfully") eq_refl).
  - exact (proj2 (createTodo_completed_false done_already 100 one_todo)
             2 (Todo.mk "done already" None false "medium" None None 100) eq_refl).
Defined.

(** ** [updateTodo], as an equation *)

Lemma Todo_accepts_true (db : DB) (v : PartialTodo.t) :
  accepted db v = true → Todo_accepts db v = ret tt.
Proof.
  unfold accepted, Todo_accepts.
  destruct (stored_string (PartialTodo.title v)); [|done].
  destruct (stored_string (PartialTodo.priority v)); [|done].
  by intros ->.
Qed.

Lemma Todo_accepts_false (db : DB) (v : PartialTodo.t) :
  accepted db v = false → ∃ e, Todo_accepts db v = throw e.
Proof.
  unfold accepted, Todo_accepts.
  destruct (stored_string (PartialTodo.title v)); [|by eexists].
  destruct (stored_string (PartialTodo.priority v)); [|by eexists].
  intros ->. by eexists.
Qed.

Lemma updateTodo_eq (id : Z) (body : PartialTodo.t) (db : DB) :
  updateTodo id body db
  = match Todos db !! id with
    | None => (Failure 404 "Todo not found", db)
    | Some t =>
        if accepted db (updateTodo_values t body)
        then
          let db' := set_Todos (alter (Todo_set (updateTodo_values t body)) id) db in
          (Success 200
             (Some (include_category db' (id, Todo_set (updateTodo_values t body) t)))
             (Some "Todo updated successfully"), db')
        else (Failure 400 "Error updating todo", db)
    end.
Proof.
  unfold updateTodo, Todo_findByPk, Todo_findByPk_include, Todo_update. run.
  destruct (Todos db !! id) as [t|] eqn:Ht; simpl; [|reflexivity].
  destruct (accepted db (updateTodo_values t body)) eqn:Hacc.
  - rewrite (Todo_accepts_true _ _ Hacc). run. by rewrite lookup_alter_eq, Ht.
  - destruct (Todo_accepts_false _ _ Hacc) as [e ->]. reflexivity.
Qed.

Lemma accepted_references (db : DB) (v : PartialTodo.t) :
  accepted db v = true →
  references_Category db (default None (PartialTodo.category_id v)) = true.
Proof.
  unfold accepted.
  destruct (stored_string (PartialTodo.title v)); [|done].
  by destruct (stored_string (PartialTodo.priority v)).
Qed.

Lemma not_accepted (db : DB) (v : PartialTodo.t) :
  references_Category db (default None (PartialTodo.category_id v)) = false →
  accepted db v = false.
Proof.
  intros Hfk. destruct (accepted db v) eqn:Hacc; [|reflexivity].
  apply accepted_references in Hacc. congruence.
Qed.

Lemma varchar255_fits (s : string) : (String.length s ≤ 255)%nat → varchar255 s = Some s.
Proof.
  intros Hs. unfold varchar255.
  destruct (Nat.leb_spec (String.length s) 255); [reflexivity|lia].
Qed.

(** ** C6: the merge of [updateTodo] *)

(** C6, as stated, fails, in two ways.  The store has one todo, titled
    "first", and no category.  A request that moves the todo into category
    7, and a request that gives it a title of 256 letters, are both refused
    by the store: the reply is the failure of the catch block, and
    [category_id] stays null and the title stays "first". *)
Lemma updateTodo_merge_counterexample :
  (updateTodo 1 (into_category 7) one_todo
     = (Failure 400 "Error updating todo", one_todo)
   ∧ ¬ every_field_merged 1 (into_category 7) one_todo)
  ∧ (updateTodo 1 long_title one_todo
       = (Failure 400 "Error updating todo", one_todo)
     ∧ ¬ every_field_merged 1 long_title one_todo).
Proof.
  split; (split; [reflexivity|]); intros Hclaim.
  - destruct (Hclaim _ eq_refl) as (t' & Ht' & _ & _ & Hc & _).
    vm_compute in Ht'. injection Ht' as <-. discriminate Hc.
  - destruct (Hclaim _ eq_refl) as (t' & Ht' & Htitle & _).
    vm_compute in Ht'. injection Ht' as <-. vm_compute in Htitle. discriminate Htitle.
Qed.

(** C6, amended.  [updateTodo] on an [id] of the key column's type that is
    not stored replies with the not-found failure and writes nothing.  On a
    stored todo, let each
    field of the new row be the request's when the request has it and the
    stored one otherwise.  When the new title and priority are of at most 255
    characters and the new [category_id] is null or the [id] of a stored
    category, the update succeeds: the row has these six fields,
    [completed] as given and not negated, its [createdAt] as before, and no
    other row has changed.  When the store refuses the new row, the reply
    is the failure of the catch block and nothing has changed. *)
Theorem updateTodo_merge (id : Z) (body : PartialTodo.t) (db : DB) :
  (INTEGER id → Todos db !! id = None →
     NotFoundError (updateTodo id body db).1 ∧ (updateTodo id body db).2 = db)
  ∧ (∀ t, Todos db !! id = Some t →
       (String.length (default (Todo.title t) (PartialTodo.title body)) ≤ 255)%nat →
       (String.length (default (Todo.priority t) (PartialTodo.priority body)) ≤ 255)%nat →
       references_Category db
         (default (Todo.category_id t) (PartialTodo.category_id body)) = true →
       ∃ t',
         (updateTodo id body db).1
           = Success 200
               (Some (include_category (updateTodo id body db).2 (id, t')))
               (Some "Todo updated successfully")
         ∧ Todos (updateTodo id body db).2 = <[id := t']> (Todos db)
         ∧ Categories (updateTodo id body db).2 = Categories db
         ∧ Todo.title t' = default (Todo.title t) (PartialTodo.title body)
         ∧ Todo.description t'
           = default (Todo.description t) (PartialTodo.description body)
         ∧ Todo.category_id t'
           = default (Todo.category_id t) (PartialTodo.category_id body)
         ∧ Todo.priority t' = default (Todo.priority t) (PartialTodo.priority body)
         ∧ Todo.due_date t' = default (Todo.due_date t) (PartialTodo.due_date body)
         ∧ Todo.completed t' = default (Todo.completed t) (PartialTodo.completed body)
         ∧ Todo.createdAt t' = Todo.createdAt t)
  ∧ (∀ t, Todos db !! id = Some t →
       varchar255 (default (Todo.title t) (PartialTodo.title body)) = None
       ∨ varchar255 (default (Todo.priority t) (PartialTodo.priority body)) = None
       ∨ references_Category db
           (default (Todo.category_id t) (PartialTodo.category_id body)) = false →
       updateTodo id body db = (Failure 400 "Error updating todo", db)).
Proof.
  rewrite updateTodo_eq. split; [|split].
  - intros _ ->. split; [by left|reflexivity].
  - intros t Ht Htitle Hpriority Hfk. rewrite Ht.
    assert (accepted db (updateTodo_values t body) = true) as ->.
    { unfold accepted, stored_string. simpl.
      by rewrite (varchar255_fits _ Htitle), (varchar255_fits _ Hpriority). }
    simpl. exists (Todo_set (updateTodo_values t body) t).
    split; [reflexivity|]. split.
    { apply map_eq. intros k. destruct (decide (id = k)) as [<-|Hne].
      - by rewrite lookup_alter_eq, lookup_insert_eq, Ht.
      - by rewrite lookup_alter_ne, lookup_insert_ne. }
    split; [reflexivity|]. simpl.
    rewrite (varchar255_fits _ Htitle), (varchar255_fits _ Hpriority). done.
  - intros t -> Hrefused.
    assert (accepted db (updateTodo_values t body) = false) as ->; [|reflexivity].
    unfold accepted, stored_string. simpl.
    destruct Hrefused as [->|[->|Hfk]]; [reflexivity| |].
    + by destruct (varchar255 (default (Todo.title t) (PartialTodo.title body))).
    + by apply (not_accepted db (updateTodo_values t body)).
Qed.

Lemma updateTodo_merge_witness :
  (NotFoundError (updateTodo 2 (done_in_category 1) work_db).1
   ∧ (updateTodo 2 (done_in_category 1) work_db).2 = work_db)
  ∧ ∃ t',
      (updateTodo 1 (done_in_category 1) work_db).1
        = Success 200
            (Some (include_category (updateTodo 1 (done_in_category 1) work_db).2
                     (1, t')))
            (Some "Todo updated successfully")
      ∧ Todos (updateTodo 1 (done_in_category 1) work_db).2
        = <[1 := t']> (Todos work_db)
      ∧ Categories (updateTodo 1 (done_in_category 1) work_db).2 = Categories work_db
      ∧ Todo.title t' = "first"
      ∧ Todo.description t' = None
      ∧ Todo.category_id t' = Some 1
      ∧ Todo.priority t' = "medium"
      ∧ Todo.due_date t' = None
      ∧ Todo.completed t' = true
      ∧ Todo.createdAt t' = 100.
Proof.
  split.
  - apply (proj1 (updateTodo_merge 2 (done_in_category 1) work_db)); [|reflexivity].
    unfold INTEGER. lia.
  - apply (proj1 (proj2 (updateTodo_merge 1 (done_in_category 1) work_db))
             (Todo.mk "first" None false "medium" None None 100));
      [reflexivity | simpl; lia | simpl; lia | reflexivity].
Defined.

(** ** C8: referential integrity *)

Lemma references_Category_ext (db db' : DB) (c : option Z) :
  Categories db' = Categories db → references_Category db' c = references_Category db c.
Proof. unfold references_Category. by intros ->. Qed.

(** C8.  A [createTodo] or an [updateTodo] whose request has a non-null
    [category_id] succeeds only if that is the [id] of a stored category,
    and then the row it stores has it; when it is not, the reply is the
    failure of the catch block and [Todos] is as before.  So both keep
    the store such that every todo is in no category or in a stored one. *)
Theorem mutation_referential_integrity (id : Z) (body : PartialTodo.t) (now : Z) (db : DB) :
  (∀ c st d msg,
     PartialTodo.category_id body = Some (Some c) →
     (createTodo body now db).1 = Success st (Some d) msg →
     Todos (createTodo body now db).2 !! TodoJson.id d = Some (TodoJson.todo d)
     ∧ Todo.category_id (TodoJson.todo d) = Some c
     ∧ is_Some (Categories (createTodo body now db).2 !! c))
  ∧ (∀ c st d msg,
       PartialTodo.category_id body = Some (Some c) →
       (updateTodo id body db).1 = Success st (Some d) msg →
       Todos (updateTodo id body db).2 !! id = Some (TodoJson.todo d)
       ∧ Todo.category_id (TodoJson.todo d) = Some c
       ∧ is_Some (Categories (updateTodo id body db).2 !! c))
  ∧ (∀ c,
       PartialTodo.category_id body = Some (Some c) →
       Categories db !! c = None →
       (createTodo body now db).1 = Failure 400 "Error creating todo"
       ∧ Todos (createTodo body now db).2 = Todos db
       ∧ (is_Some (Todos db !! id) →
          updateTodo id body db = (Failure 400 "Error updating todo", db)))
  ∧ (referential_integrity db →
       referential_integrity (createTodo body now db).2
       ∧ referential_integrity (updateTodo id body db).2).
Proof.
  split; [|split; [|split]].
  - intros c st d msg Hbody Hs.
    destruct (createTodo_cases body now db)
      as [(Hr & _)|(k & t & Hr & _ & Ht & Hcat & _ & Hc & Hfk)].
    { rewrite Hr in Hs. discriminate. }
    rewrite Hr in Hs. injection Hs as _ <- _. simpl.
    rewrite Ht, lookup_insert_eq, Hcat. rewrite Hbody in Hc. simpl in Hc.
    split; [reflexivity|]. split; [exact Hc|].
    rewrite Hc in Hfk. simpl in Hfk. by apply bool_decide_eq_true in Hfk.
  - intros c st d msg Hbody. rewrite updateTodo_eq.
    destruct (Todos db !! id) as [t|] eqn:Ht; [|discriminate].
    destruct (accepted db (updateTodo_values t body)) eqn:Hacc; [|discriminate].
    simpl. intros [= _ <- _]. simpl. rewrite lookup_alter_eq, Ht. simpl.
    split; [reflexivity|]. rewrite Hbody. simpl. split; [reflexivity|].
    apply accepted_references in Hacc. simpl in Hacc. rewrite Hbody in Hacc.
    by apply bool_decide_eq_true in Hacc.
  - intros c Hbody Hc. split; [|split].
    + destruct (createTodo_cases body now db)
        as [(Hr & _)|(k & t & _ & _ & _ & _ & _ & Hcid & Hfk)]; [exact Hr|].
      rewrite Hcid, Hbody in Hfk. simpl in Hfk. apply bool_decide_eq_true in Hfk.
      rewrite Hc in Hfk. by destruct Hfk.
    + destruct (createTodo_cases body now db)
        as [(_ & Ht & _)|(k & t & _ & _ & _ & _ & _ & Hcid & Hfk)]; [exact Ht|].
      rewrite Hcid, Hbody in Hfk. simpl in Hfk. apply bool_decide_eq_true in Hfk.
      rewrite Hc in Hfk. by destruct Hfk.
    + intros [t Ht]. rewrite updateTodo_eq, Ht.
      assert (accepted db (updateTodo_values t body) = false) as ->; [|reflexivity].
      apply not_accepted. simpl. rewrite Hbody. simpl.
      apply bool_decide_eq_false. rewrite Hc. by intros [? ?].
  - intros Hri. split.
    + destruct (createTodo_cases body now db)
        as [(_ & Ht & Hcat)|(k & t & _ & _ & Ht & Hcat & _ & _ & Hfk)];
        unfold referential_integrity; rewrite Ht.
      * intros k t Hk. cbv beta.
        rewrite (references_Category_ext db) by done. by apply (Hri k).
      * intros k' t' Hk'. cbv beta. rewrite (references_Category_ext db) by done.
        destruct (decide (k = k')) as [<-|Hne].
        -- rewrite lookup_insert_eq in Hk'. by injection Hk' as <-.
        -- rewrite lookup_insert_ne in Hk' by done. by apply (Hri k').
    + rewrite updateTodo_eq.
      destruct (Todos db !! id) as [t|] eqn:Ht; [|exact Hri].
      destruct (accepted db (updateTodo_values t body)) eqn:Hacc; [|exact Hri].
      simpl. intros k t' Hk'. simpl in Hk'. cbv beta.
      rewrite (references_Category_ext db) by done.
      destruct (decide (id = k)) as [<-|Hne].
      * rewrite lookup_alter_eq, Ht in Hk'. injection Hk' as <-.
        exact (accepted_references _ _ Hacc).
      * rewrite lookup_alter_ne in Hk' by done. by apply (Hri k).
Qed.

Lemma mutation_referential_integrity_witness :
  (Todos (createTodo (second_in_category 1) 200 work_db).2 !! 2
     = Some (Todo.mk "second" None false "medium" None (Some 1) 200)
   ∧ Todo.category_id (Todo.mk "second" None false "medium" None (Some 1) 200) = Some 1
   ∧ is_Some (Categories (createTodo (second_in_category 1) 200 work_db).2 !! 1))
  ∧ ((createTodo (second_in_category 7) 200 work_db).1
       = Failure 400 "Error creating todo"
     ∧ Todos (createTodo (second_in_category 7) 200 work_db).2 = Todos work_db
     ∧ (is_Some (Todos work_db !! 1) →
        updateTodo 1 (second_in_category 7) work_db
        = (Failure 400 "Error updating todo", work_db)))
  ∧ (referential_integrity (createTodo (second_in_category 1) 200 work_db).2
     ∧ referential_integrity (updateTodo 1 (second_in_category 1) work_db).2).
Proof.
  split; [|split].
  - exact (proj1 (mutation_referential_integrity 1 (second_in_category 1) 200 work_db)
             1 201%nat
             (TodoJson.mk 2 (Todo.mk "second" None false "medium" None (Some 1) 200)
                (Some (1, "Work", "#0000ff")))
             (Some "Todo created successfully") eq_refl eq_refl).
  - exact (proj1 (proj2 (proj2
             (mutation_referential_integrity 1 (second_in_category 7) 200 work_db)))
             7 eq_refl eq_refl).
  - apply (proj2 (proj2 (proj2
             (mutation_referential_integrity 1 (second_in_category 1) 200 work_db)))).
    apply (bool_decide_unpack _). vm_compute. exact I.
Defined.

(** ** C5: deleting a category *)

Lemma detach_category_id (id : Z) (t : Todo.t) :
  Todo.category_id (detach id t)
  = if bool_decide (Todo.category_id t = Some id) then None else Todo.category_id t.
Proof. unfold detach. by case_bool_decide. Qed.

Lemma detach_detached (id : Z) (t : Todo.t) :
  Todo.category_id (detach id t) ≠ Some id.
Proof. rewrite detach_category_id. by case_bool_decide. Qed.

Lemma deleteCategory_eq (id : Z) (db : DB) :
  deleteCategory id db
  = match Categories db !! id with
    | None => (Failure 404 "Category not found", db)
    | Some _ =>
        (Success 200 tt (Some "Category deleted successfully"),
         set_Categories (delete id) (set_Todos (fmap (detach id)) db))
    end.
Proof.
  unfold deleteCategory, Category_findByPk, Todo_update_where_category_id,
    Category_destroy. run.
  destruct (Categories db !! id) as [c|]; simpl; [|reflexivity].
  rewrite bool_decide_eq_true_2; [reflexivity|].
  apply map_Forall_fmap. intros k t _. apply detach_detached.
Qed.

(** C5.  [deleteCategory] on an [id] of the key column's type that is not
    stored replies with the not-found failure and writes nothing.  On a
    stored category it succeeds;
    afterwards the category is gone and the other categories are as they
    were, the todos have the keys they had, every todo that was in the
    category is in none and every other todo is where it was, with the other
    fields of every todo as before, and no todo is in the deleted
    category. *)
Theorem deleteCategory_cascade (id : Z) (db : DB) :
  (INTEGER id → Categories db !! id = None →
     NotFoundError (deleteCategory id db).1 ∧ (deleteCategory id db).2 = db)
  ∧ (is_Some (Categories db !! id) →
       (deleteCategory id db).1
         = Success 200 tt (Some "Category deleted successfully")
       ∧ Categories (deleteCategory id db).2 = delete id (Categories db)
       ∧ dom (Todos (deleteCategory id db).2) = dom (Todos db)
       ∧ (∀ k t, Todos db !! k = Some t →
            ∃ t', Todos (deleteCategory id db).2 !! k = Some t'
              ∧ Todo.category_id t'
                = (if bool_decide (Todo.category_id t = Some id)
                   then None else Todo.category_id t)
              ∧ Todo.title t' = Todo.title t
              ∧ Todo.description t' = Todo.description t
              ∧ Todo.completed t' = Todo.completed t
              ∧ Todo.priority t' = Todo.priority t
              ∧ Todo.due_date t' = Todo.due_date t
              ∧ Todo.createdAt t' = Todo.createdAt t)
       ∧ (∀ k t', Todos (deleteCategory id db).2 !! k = Some t' →
            Todo.category_id t' ≠ Some id)).
Proof.
  rewrite deleteCategory_eq. split.
  - intros _ ->. split; [by right|reflexivity].
  - intros [c ->]. simpl. split; [reflexivity|]. split; [reflexivity|].
    split; [apply dom_fmap_L|]. split.
    + intros k t Hk. exists (detach id t). rewrite lookup_fmap, Hk.
      split; [reflexivity|]. split; [apply detach_category_id|].
      unfold detach. by case_bool_decide.
    + intros k t'. rewrite lookup_fmap.
      destruct (Todos db !! k) as [t|]; [|done].
      intros [= <-]. apply detach_detached.
Qed.

Lemma deleteCategory_cascade_witness :
  (NotFoundError (deleteCategory 2 first_in_work).1
   ∧ (deleteCategory 2 first_in_work).2 = first_in_work)
  ∧ (deleteCategory 1 first_in_work).1
    = Success 200 tt (Some "Category deleted successfully")
  ∧ Categories (deleteCategory 1 first_in_work).2
    = delete 1 (Categories first_in_work)
  ∧ dom (Todos (deleteCategory 1 first_in_work).2) = dom (Todos first_in_work)
  ∧ (∀ k t, Todos first_in_work !! k = Some t →
       ∃ t', Todos (deleteCategory 1 first_in_work).2 !! k = Some t'
         ∧ Todo.category_id t'
           = (if bool_decide (Todo.category_id t = Some 1)
              then None else Todo.category_id t)
         ∧ Todo.title t' = Todo.title t
         ∧ Todo.description t' = Todo.description t
         ∧ Todo.completed t' = Todo.completed t
         ∧ Todo.priority t' = Todo.priority t
         ∧ Todo.due_date t' = Todo.due_date t
         ∧ Todo.createdAt t' = Todo.createdAt t)
  ∧ (∀ k t', Todos (deleteCategory 1 first_in_work).2 !! k = Some t' →
       Todo.category_id t' ≠ Some 1).
Proof.
  split.
  - apply (proj1 (deleteCategory_cascade 2 first_in_work)); [|reflexivity].
    unfold INTEGER. lia.
  - apply (proj2 (deleteCategory_cascade 1 first_in_work)).
    exists (Category.mk "Work" "#0000ff"). reflexivity.
Defined.

(** ** C7: category names *)

Lemma head_filter_is_Some {A} (P : A → Prop) `{∀ x, Decision (P x)} (l : list A) :
  is_Some (head (filter P l)) ↔ ∃ x, x ∈ l ∧ P x.
Proof.
  split.
  - intros [x Hx]. exists x.
    assert (x ∈ filter P l) as Hin.
    { destruct (filter P l) as [|y l']; [done|].
      injection Hx as ->. apply list_elem_of_here. }
    apply list_elem_of_filter in Hin as [HP Hin]. done.
  - intros (x & Hx & HP).
    assert (x ∈ filter P l) as Hin by (apply list_elem_of_filter; done).
    destruct (filter P l); [by apply not_elem_of_nil in Hin|by eexists].
Qed.

Lemma named_is_Some (name : string) (db : DB) :
  is_Some (head (filter (λ i : Z * Category.t, Category.name i.2 = name)
                   (map_to_list (Categories db))))
  ↔ ∃ k c, Categories db !! k = Some c ∧ Category.name c = name.
Proof.
  rewrite head_filter_is_Some. split.
  - intros ([k c] & Hin & Hname). exists k, c.
    split; [by apply elem_of_map_to_list|done].
  - intros (k & c & Hk & Hname). exists (k, c).
    split; [by apply elem_of_map_to_list|done].
Qed.

(** C7.  [createCategory] with the name of a stored category, character for
    character, replies with the duplicate failure and writes nothing.
    [updateCategory] of a stored category with a name that is not empty, is
    not its own and is the name of a stored category replies with the
    duplicate failure and writes nothing.  [updateCategory] with the name
    the category has is not answered by the duplicate failure. *)
Theorem category_name_unique (id : Z) (body : PartialCategory.t) (db : DB) :
  (∀ name,
     PartialCategory.name body = Some name →
     (∃ k c, Categories db !! k = Some c ∧ Category.name c = name) →
     DuplicateError (createCategory body db).1
     ∧ (createCategory body db).2 = db)
  ∧ (∀ name c,
       Categories db !! id = Some c →
       PartialCategory.name body = Some name →
       name ≠ "" →
       name ≠ Category.name c →
       (∃ k c', Categories db !! k = Some c' ∧ Category.name c' = name) →
       DuplicateError (updateCategory id body db).1
       ∧ (updateCategory id body db).2 = db)
  ∧ (∀ c,
       Categories db !! id = Some c →
       PartialCategory.name body = Some (Category.name c) →
       ¬ DuplicateError (updateCategory id body db).1).
Proof.
  split; [|split].
  - intros name Hbody Hdup. apply named_is_Some in Hdup as [i Hi].
    unfold createCategory. run. rewrite Hbody. simpl. rewrite Hi.
    split; [by left|reflexivity].
  - intros name c Hid Hbody Hne Hchange Hdup. apply named_is_Some in Hdup as [i Hi].
    unfold updateCategory, Category_findByPk. run. rewrite Hid, Hbody. simpl.
    assert (truthy name = true) as ->.
    { unfold truthy. apply negb_true_iff. by apply String.eqb_neq. }
    assert (String.eqb name (Category.name c) = false) as ->
      by (by apply String.eqb_neq).
    simpl. rewrite Hi. split; [by right|reflexivity].
  - intros c Hid Hbody.
    unfold updateCategory, Category_findByPk, Category_update. run.
    rewrite Hid, Hbody. simpl. rewrite String.eqb_refl, andb_false_r. simpl.
    assert ((if truthy (Category.name c) then Category.name c else Category.name c)
            = Category.name c) as -> by (by destruct (truthy _)).
    destruct (varchar255 (Category.name c)); simpl; [|intros [?|?]; discriminate].
    destruct (varchar255 (or_else (PartialCategory.color body) (Category.color c)));
      simpl; intros [?|?]; discriminate.
Qed.

Lemma category_name_unique_witness :
  (DuplicateError (createCategory (renamed "Work") two_categories).1
   ∧ (createCategory (renamed "Work") two_categories).2 = two_categories)
  ∧ (DuplicateError (updateCategory 2 (renamed "Work") two_categories).1
     ∧ (updateCategory 2 (renamed "Work") two_categories).2 = two_categories)
  ∧ ¬ DuplicateError (updateCategory 1 (renamed "Work") two_categories).1.
Proof.
  split; [|split].
  - apply (proj1 (category_name_unique 1 (renamed "Work") two_categories) "Work");
      [reflexivity|].
    exists 1, (Category.mk "Work" "#0000ff"). split; reflexivity.
  - apply (proj1 (proj2 (category_name_unique 2 (renamed "Work") two_categories))
             "Work" (Category.mk "Home" "#1890ff"));
      [reflexivity | reflexivity | discriminate | discriminate |].
    exists 1, (Category.mk "Work" "#0000ff"). split; reflexivity.
  - apply (proj2 (proj2 (category_name_unique 1 (renamed "Work") two_categories))
             (Category.mk "Work" "#0000ff"));
      reflexivity.
Defined.

(** ** The scenarios of the specification *)

(** Scenario C: "Buy milk" is found by the search for "MILK". *)
Example search_is_case_insensitive `{Engine} :
  where_matches (build_where (search_for "MILK"))
    (Todo.mk "Buy milk" None false "medium" None None 0) = true.
Proof. reflexivity. Qed.

(** A request without [completed] has no condition on it; one with
    [completed=false] has. *)
Example completed_absent_is_not_false `{Engine} :
  where_matches (build_where (Query.mk None None None None None None))
    (Todo.mk "Buy milk" None true "medium" None None 0) = true
  ∧ where_matches (build_where (Query.mk None None None None None (Some "false")))
      (Todo.mk "Buy milk" None true "medium" None None 0) = false.
Proof. split; reflexivity. Qed.

(** Scenario D, and the todo of [first_in_work] before it. *)
Example delete_category_detaches :
  Todo.category_id <$> Todos first_in_work !! 1 = Some (Some 1)
  ∧ Todo.category_id <$> Todos (deleteCategory 1 first_in_work).2 !! 1 = Some None
  ∧ Categories (deleteCategory 1 first_in_work).2 = ∅.
Proof. split; [|split]; reflexivity. Qed.

(** Scenario B: of fifteen matching rows, the second page of ten has five,
    and there are two pages. *)
Example second_page_of_fifteen :
  Math_ceil_div 15 10 = Some 2
  ∧ List.length (take 10 (drop (Z.to_nat ((2 - 1) * 10)) (seq 0 15))) = 5%nat.
Proof. split; reflexivity. Qed.

(** * Further properties of the controllers *)

(** ** The remaining controllers, as equations *)

Lemma createTodo_eq (body : PartialTodo.t) (now : Z) (db : DB) :
  createTodo body now db
  = match PartialTodo.title body with
    | None => (Failure 400 "Error creating todo", db)
    | Some _ =>
        let id := Todos_seq db + 1 in
        if accepted db (createTodo_values body)
           && negb (bool_decide (is_Some (Todos db !! id)))
        then
          let t := Todo_set (createTodo_values body) (new_todo now) in
          let db' := set_Todos (insert id t) (set_Todos_seq id db) in
          (Success 201 (Some (include_category db' (id, t)))
             (Some "Todo created successfully"), db')
        else (Failure 400 "Error creating todo",
              if fits (createTodo_values body) then set_Todos_seq id db else db)
    end.
Proof.
  unfold createTodo, Todo_create, Todo_findByPk_include.
  fold (createTodo_values body). fold (new_todo now).
  destruct (PartialTodo.title body) as [title|] eqn:Htitle.
  2: { unfold createTodo_values at 1. simpl. rewrite Htitle. reflexivity. }
  assert (PartialTodo.title (createTodo_values body) = Some title) as Hsome
    by exact Htitle.
  rewrite Hsome at 1. unfold fits, accepted, Todo_accepts.
  destruct (stored_string (PartialTodo.title (createTodo_values body)));
    [|reflexivity].
  destruct (stored_string (PartialTodo.priority (createTodo_values body)));
    [|reflexivity].
  unfold try_catch, bind, get, modify. cbn [fst snd].
  destruct (references_Category db _); [|reflexivity].
  unfold ret at 1. cbn [andb]. case_bool_decide; simpl; [reflexivity|].
  unfold ret. simpl. by rewrite lookup_insert_eq.
Qed.

Lemma deleteTodo_eq (id : Z) (db : DB) :
  deleteTodo id db
  = match Todos db !! id with
    | None => (Failure 404 "Todo not found", db)
    | Some _ => (Success 200 tt (Some "Todo deleted successfully"),
                 set_Todos (delete id) db)
    end.
Proof.
  unfold deleteTodo, Todo_findByPk, Todo_destroy. run.
  by destruct (Todos db !! id).
Qed.

Lemma getTodoById_eq (id : Z) (db : DB) :
  getTodoById id db
  = match Todos db !! id with
    | None => (Failure 404 "Todo not found", db)
    | Some t => (Success 200 (include_category db (id, t)) None, db)
    end.
Proof.
  unfold getTodoById, Todo_findByPk_include. run.
  by destruct (Todos db !! id).
Qed.

Lemma name_taken_true (db : DB) (name : string) :
  name_taken db name = true
  ↔ ∃ k c, Categories db !! k = Some c ∧ Category.name c = name.
Proof. unfold name_taken. rewrite bool_decide_eq_true. apply named_is_Some. Qed.

Lemma name_taken_false (db : DB) (name : string) :
  name_taken db name = false
  ↔ ∀ k c, Categories db !! k = Some c → Category.name c ≠ name.
Proof.
  rewrite <- not_true_iff_false, name_taken_true. split.
  - intros Hno k c Hk Hname. apply Hno. eauto.
  - intros Hall (k & c & Hk & Hname). by apply (Hall k c).
Qed.

Lemma createCategory_eq (body : PartialCategory.t) (db : DB) :
  createCategory body db
  = match PartialCategory.name body with
    | None => (Failure 400 "Error creating category", db)
    | Some name =>
        if name_taken db name then (Failure 400 "Category already exists", db)
        else
          let id := Categories_seq db + 1 in
          match varchar255 name,
                varchar255 (or_else (PartialCategory.color body) "#1890ff") with
          | Some name', Some color' =>
              if bool_decide (is_Some (Categories db !! id))
              then (Failure 400 "Error creating category", set_Categories_seq id db)
              else
                let c := {| Category.name := name'; Category.color := color' |} in
                (Success 201 (id, c) (Some "Category created successfully"),
                 set_Categories (insert id c) (set_Categories_seq id db))
          | _, _ => (Failure 400 "Error creating category", db)
          end
    end.
Proof.
  unfold createCategory, Category_findOne_name, Category_create, name_taken.
  destruct (PartialCategory.name body) as [name|]; [|reflexivity]. run.
  destruct (head (filter _ _)) as [i|] eqn:Hhead.
  - rewrite bool_decide_eq_true_2 by eauto. reflexivity.
  - rewrite (bool_decide_eq_false_2 (is_Some (@None (Z * Category.t))))
      by apply is_Some_None.
    destruct (varchar255 name); [|reflexivity].
    destruct (varchar255 (or_else (PartialCategory.color body) "#1890ff"));
      [|reflexivity].
    by case_bool_decide.
Qed.

Lemma updateCategory_eq (id : Z) (body : PartialCategory.t) (db : DB) :
  updateCategory id body db
  = match Categories db !! id with
    | None => (Failure 404 "Category not found", db)
    | Some c =>
        if match new_name c body with Some name => name_taken db name | None => false end
        then (Failure 400 "Category name already exists", db)
        else
          match varchar255 (or_else (PartialCategory.name body) (Category.name c)),
                varchar255 (or_else (PartialCategory.color body) (Category.color c)) with
          | Some _, Some _ =>
              (Success 200 (id, Category_assign (updateCategory_values c body) c)
                 (Some "Category updated successfully"),
               set_Categories (alter (Category_set (updateCategory_values c body)) id) db)
          | _, _ => (Failure 400 "Error updating category", db)
          end
    end.
Proof.
  unfold updateCategory, Category_findByPk, Category_update, Category_findOne_name,
    new_name, name_taken, updateCategory_values, stored_string. run.
  destruct (Categories db !! id) as [c|]; simpl; [|reflexivity].
  destruct (PartialCategory.name body) as [name|]; simpl;
    [destruct (truthy name); simpl;
       [destruct (String.eqb name (Category.name c)); simpl;
          [|destruct (head (filter _ _)) as [i|] eqn:Hhead;
              [rewrite bool_decide_eq_true_2 by eauto; reflexivity
              |rewrite (bool_decide_eq_false_2 (is_Some (@None (Z * Category.t))))
                 by apply is_Some_None]]|]|];
    repeat (match goal with
            | |- context [varchar255 ?x] => destruct (varchar255 x); simpl
            end);
    reflexivity.
Qed.

(** ** What the store keeps *)

Lemma length_string_of_list_ascii (l : list ascii) :
  String.length (string_of_list_ascii l) = List.length l.
Proof. induction l as [|c l IH]; [reflexivity|]. simpl. by rewrite IH. Qed.

Lemma varchar255_length (s s' : string) :
  varchar255 s = Some s' → (String.length s' ≤ 255)%nat.
Proof.
  unfold varchar255. destruct (Nat.leb_spec (String.length s) 255) as [Hle|Hgt].
  - by intros [= <-].
  - destruct (forallb _ _); [|done]. intros [= <-].
    rewrite length_string_of_list_ascii, length_take. lia.
Qed.

Lemma default_varchar255_length (old : string) (new : option string) :
  (String.length old ≤ 255)%nat →
  (String.length (default old (new ≫= varchar255)) ≤ 255)%nat.
Proof.
  intros Hold. destruct new as [s|]; [|exact Hold]. simpl.
  destruct (varchar255 s) as [s'|] eqn:Hs; [|exact Hold].
  by apply varchar255_length in Hs.
Qed.

Lemma Todo_set_strings_fit (v : PartialTodo.t) (t : Todo.t) :
  (String.length (Todo.title t) ≤ 255)%nat ∧ (String.length (Todo.priority t) ≤ 255)%nat →
  (String.length (Todo.title (Todo_set v t)) ≤ 255)%nat
  ∧ (String.length (Todo.priority (Todo_set v t)) ≤ 255)%nat.
Proof. intros [Ht Hp]. split; by apply default_varchar255_length. Qed.

Lemma Category_set_strings_fit (v : PartialCategory.t) (c : Category.t) :
  (String.length (Category.name c) ≤ 255)%nat
  ∧ (String.length (Category.color c) ≤ 255)%nat →
  (String.length (Category.name (Category_set v c)) ≤ 255)%nat
  ∧ (String.length (Category.color (Category_set v c)) ≤ 255)%nat.
Proof. intros [Hn Hc]. split; by apply default_varchar255_length. Qed.

Lemma map_Forall_alter {A} (P : Z → A → Prop) (f : A → A) (k : Z) (m : gmap Z A) :
  (∀ x, m !! k = Some x → P k x → P k (f x)) →
  map_Forall P m → map_Forall P (alter f k m).
Proof.
  intros Hf Hm i y. destruct (decide (k = i)) as [<-|Hne].
  - rewrite lookup_alter_eq. destruct (m !! k) as [x|] eqn:Hk; [|done].
    intros [= <-]. apply Hf; [done|]. by apply Hm.
  - rewrite lookup_alter_ne by done. apply Hm.
Qed.

Lemma references_Category_mono (db db' : DB) (c : option Z) :
  (∀ k, is_Some (Categories db !! k) → is_Some (Categories db' !! k)) →
  references_Category db c = true → references_Category db' c = true.
Proof.
  intros Hsub. destruct c as [k|]; [|done]. simpl.
  rewrite !bool_decide_eq_true. apply Hsub.
Qed.

Lemma consistent_empty : consistent empty_db.
Proof.
  unfold consistent, sequences_ahead, strings_fit, referential_integrity. simpl.
  split; [split|split; [split|]]; apply map_Forall_empty.
Qed.

Ltac split_consistent :=
  unfold consistent, sequences_ahead, strings_fit;
  split; [split|split; [split|]]; simpl.

Lemma createTodo_consistent (body : PartialTodo.t) (now : Z) (db : DB) :
  consistent db → consistent (createTodo body now db).2.
Proof.
  intros Hdb. pose proof Hdb as ([Hst Hsc] & [Hft Hfc] & Hri). rewrite createTodo_eq.
  destruct (PartialTodo.title body) as [title|] eqn:Htitle; [|done].
  assert (map_Forall (λ k _, k ≤ Todos_seq db + 1) (Todos db)) as Hst'.
  { intros k t Hk. specialize (Hst k t Hk). simpl in Hst. lia. }
  assert (consistent (set_Todos_seq (Todos_seq db + 1) db)) as Hseq
    by (split_consistent; done).
  destruct (accepted db (createTodo_values body)) eqn:Hacc; simpl;
    [|by destruct (fits _)].
  case_bool_decide as Hfree; simpl; [by destruct (fits _)|].
  split_consistent; try done.
  - apply map_Forall_insert_2; [lia|done].
  - apply map_Forall_insert_2; [|done].
    apply Todo_set_strings_fit. simpl. lia.
  - unfold referential_integrity. simpl. apply map_Forall_insert_2; [|exact Hri].
    exact (accepted_references _ _ Hacc).
Qed.

Lemma updateTodo_consistent (id : Z) (body : PartialTodo.t) (db : DB) :
  consistent db → consistent (updateTodo id body db).2.
Proof.
  intros Hdb. pose proof Hdb as ([Hst Hsc] & [Hft Hfc] & Hri). rewrite updateTodo_eq.
  destruct (Todos db !! id) as [t|] eqn:Ht; [|done].
  destruct (accepted db (updateTodo_values t body)) eqn:Hacc; [|done].
  split_consistent; try done.
  - by apply map_Forall_alter.
  - apply map_Forall_alter; [|done]. intros x _. apply Todo_set_strings_fit.
  - unfold referential_integrity. simpl. apply map_Forall_alter; [|exact Hri].
    intros x Hx _. rewrite Ht in Hx. injection Hx as <-.
    exact (accepted_references _ _ Hacc).
Qed.

Lemma toggleTodoComplete_consistent (id : Z) (db : DB) :
  consistent db → consistent (toggleTodoComplete id db).2.
Proof.
  intros Hdb. pose proof Hdb as ([Hst Hsc] & [Hft Hfc] & Hri).
  rewrite toggleTodoComplete_eq.
  destruct (Todos db !! id) as [t|] eqn:Ht; [|done].
  split_consistent; try done.
  - by apply map_Forall_alter.
  - apply map_Forall_alter; [|done]. intros x _. apply Todo_set_strings_fit.
  - unfold referential_integrity. simpl. apply map_Forall_alter; [|exact Hri].
    intros x _ Hx. exact Hx.
Qed.

Lemma deleteTodo_consistent (id : Z) (db : DB) :
  consistent db → consistent (deleteTodo id db).2.
Proof.
  intros Hdb. pose proof Hdb as ([Hst Hsc] & [Hft Hfc] & Hri). rewrite deleteTodo_eq.
  destruct (Todos db !! id) as [t|] eqn:Ht; [|done].
  split_consistent; try done; by apply map_Forall_delete.
Qed.

Lemma createCategory_consistent (body : PartialCategory.t) (db : DB) :
  consistent db → consistent (createCategory body db).2.
Proof.
  intros Hdb. pose proof Hdb as ([Hst Hsc] & [Hft Hfc] & Hri). rewrite createCategory_eq.
  destruct (PartialCategory.name body) as [name|]; [|done].
  destruct (name_taken db name); [done|].
  assert (map_Forall (λ k _, k ≤ Categories_seq db + 1) (Categories db)) as Hsc'.
  { intros k c Hk. specialize (Hsc k c Hk). simpl in Hsc. lia. }
  assert (consistent (set_Categories_seq (Categories_seq db + 1) db)) as Hseq
    by (split_consistent; done).
  simpl.
  destruct (varchar255 name) as [name'|] eqn:Hname; [|done].
  destruct (varchar255 (or_else (PartialCategory.color body) "#1890ff"))
    as [color'|] eqn:Hcolor; [|done].
  case_bool_decide as Hfree; [done|].
  split_consistent; try done.
  - apply map_Forall_insert_2; [lia|done].
  - apply map_Forall_insert_2; [|done]. simpl.
    split; eapply varchar255_length; eassumption.
  - intros k t Hk. simpl. eapply references_Category_mono; [|by apply (Hri k)].
    simpl. intros i Hi. destruct (decide (Categories_seq db + 1 = i)) as [<-|Hne].
    + by rewrite lookup_insert_eq.
    + by rewrite lookup_insert_ne.
Qed.

Lemma updateCategory_consistent (id : Z) (body : PartialCategory.t) (db : DB) :
  consistent db → consistent (updateCategory id body db).2.
Proof.
  intros Hdb. pose proof Hdb as ([Hst Hsc] & [Hft Hfc] & Hri). rewrite updateCategory_eq.
  destruct (Categories db !! id) as [c|] eqn:Hc; [|done].
  destruct (match new_name c body with Some _ => _ | None => _ end); [done|].
  destruct (varchar255 (or_else (PartialCategory.name body) (Category.name c)));
    [|done].
  destruct (varchar255 (or_else (PartialCategory.color body) (Category.color c)));
    [|done].
  split_consistent; try done.
  - by apply map_Forall_alter.
  - apply map_Forall_alter; [|done]. intros x _. apply Category_set_strings_fit.
  - intros k t Hk. simpl. eapply references_Category_mono; [|by apply (Hri k)].
    simpl. intros i Hi. destruct (decide (id = i)) as [<-|Hne].
    + rewrite lookup_alter_eq, Hc. by eexists.
    + by rewrite lookup_alter_ne.
Qed.

Lemma deleteCategory_consistent (id : Z) (db : DB) :
  consistent db → consistent (deleteCategory id db).2.
Proof.
  intros Hdb. pose proof Hdb as ([Hst Hsc] & [Hft Hfc] & Hri). rewrite deleteCategory_eq.
  destruct (Categories db !! id) as [c|] eqn:Hc; [|done].
  split_consistent.
  - apply map_Forall_fmap. intros k t Hk. by apply (Hst k t).
  - by apply map_Forall_delete.
  - apply map_Forall_fmap. intros k t Hk. simpl.
    unfold detach. case_bool_decide; [|by apply (Hft k t)].
    apply Todo_set_strings_fit. by apply (Hft k t).
  - by apply map_Forall_delete.
  - unfold referential_integrity. simpl. apply map_Forall_fmap.
    intros k t Hk. simpl. specialize (Hri k t Hk). simpl in Hri.
    rewrite detach_category_id. case_bool_decide as Hid; [done|].
    destruct (Todo.category_id t) as [c'|]; [|done]. simpl in *.
    rewrite bool_decide_eq_true in Hri |- *.
    rewrite lookup_delete_ne; [done|congruence].
Qed.

Lemma getTodos_store `{Engine} (q : Query.t) (db : DB) : (getTodos q db).2 = db.
Proof. by rewrite getTodos_eq. Qed.

Lemma getCategories_eq `{NameOrder} (db : DB) :
  getCategories db
  = (Success 200 (order_by_name_asc (map_to_list (Categories db))) None, db).
Proof. reflexivity. Qed.

Lemma getCategoryById_eq (id : Z) (db : DB) :
  getCategoryById id db
  = match Categories db !! id with
    | None => (Failure 404 "Category not found", db)
    | Some c =>
        (Success 200
           {| CategoryJson.id := id;
              CategoryJson.category := c;
              CategoryJson.todos :=
                (λ i : Z * Todo.t, (i.1, Todo.title i.2, Todo.completed i.2))
                  <$> filter (λ i : Z * Todo.t, Todo.category_id i.2 = Some id)
                        (map_to_list (Todos db)) |}
           None, db)
    end.
Proof.
  unfold getCategoryById, Category_findByPk_include. run.
  by destruct (Categories db !! id).
Qed.

(** X1.  The empty store is consistent, and every controller takes a
    consistent store to a consistent store: afterwards no key is beyond the
    sequence of its table, every stored string fits its column, and every
    todo is in no category or in a stored one. *)
Theorem controllers_keep_consistent `{Engine} `{NameOrder} :
  consistent empty_db
  ∧ ∀ db, consistent db →
  (∀ q, consistent (getTodos q db).2)
  ∧ (∀ id, consistent (getTodoById id db).2)
  ∧ (∀ body now, consistent (createTodo body now db).2)
  ∧ (∀ id body, consistent (updateTodo id body db).2)
  ∧ (∀ id, consistent (deleteTodo id db).2)
  ∧ (∀ id, consistent (toggleTodoComplete id db).2)
  ∧ consistent (getCategories db).2
  ∧ (∀ id, consistent (getCategoryById id db).2)
  ∧ (∀ body, consistent (createCategory body db).2)
  ∧ (∀ id body, consistent (updateCategory id body db).2)
  ∧ (∀ id, consistent (deleteCategory id db).2).
Proof.
  split; [exact consistent_empty|]. intros db Hdb.
  split; [intros q; by rewrite getTodos_store|].
  split; [intros id; rewrite getTodoById_eq; by destruct (Todos db !! id)|].
  split; [intros body now; by apply createTodo_consistent|].
  split; [intros id body; by apply updateTodo_consistent|].
  split; [intros id; by apply deleteTodo_consistent|].
  split; [intros id; by apply toggleTodoComplete_consistent|].
  split; [exact Hdb|].
  split; [intros id; rewrite getCategoryById_eq; by destruct (Categories db !! id)|].
  split; [intros body; by apply createCategory_consistent|].
  split; [intros id body; by apply updateCategory_consistent|].
  intros id. by apply deleteCategory_consistent.
Qed.

(** X2.  An [id] is not given twice: where no key is beyond the sequence,
    the todo that [createTodo] stores after [deleteTodo] has removed the
    todo [k] has an [id] above [k]. *)
Theorem createTodo_never_reuses_id (body : PartialTodo.t) (now k : Z) (db : DB) :
  sequences_ahead db →
  is_Some (Todos db !! k) →
  ∀ st d msg,
    (createTodo body now (deleteTodo k db).2).1 = Success st (Some d) msg →
    k < TodoJson.id d
    ∧ Todos (createTodo body now (deleteTodo k db).2).2 !! TodoJson.id d
      = Some (TodoJson.todo d).
Proof.
  intros [Hst _] [t Hk] st d msg. rewrite deleteTodo_eq, Hk. simpl.
  rewrite createTodo_eq. simpl.
  destruct (PartialTodo.title body); [|discriminate].
  destruct (_ && _); [|discriminate]. simpl.
  intros [= _ <- _]. simpl. rewrite lookup_insert_eq. split; [|reflexivity].
  specialize (Hst k t Hk). simpl in Hst. lia.
Qed.

Lemma controllers_keep_consistent_witness :
  consistent (createTodo (second_in_category 1) 200 work_db).2
  ∧ consistent (deleteCategory 1 work_db).2.
Proof.
  assert (consistent work_db) as Hdb by (apply (bool_decide_unpack _); vm_compute; exact I).
  pose proof (proj2 (@controllers_keep_consistent engine_id_asc name_order_bytes)
                work_db Hdb) as Hall.
  split.
  - apply Hall.
  - apply Hall.
Defined.

Lemma createTodo_never_reuses_id_witness :
  1 < 2
  ∧ Todos (createTodo (titled "second") 200 (deleteTodo 1 one_todo).2).2 !! 2
    = Some (Todo.mk "second" None false "medium" None None 200).
Proof.
  assert (sequences_ahead one_todo) as Hseq
    by (apply (bool_decide_unpack _); vm_compute; exact I).
  exact (createTodo_never_reuses_id (titled "second") 200 1 one_todo
           Hseq (ex_intro _ _ eq_refl) 201%nat
           (TodoJson.mk 2 (Todo.mk "second" None false "medium" None None 200) None)
           (Some "Todo created successfully") eq_refl).
Defined.

(** ** Creating, reading and deleting a todo *)

Ltac decided := apply (bool_decide_unpack _); vm_compute; exact I.

Lemma next_key_free (db : DB) :
  sequences_ahead db → Todos db !! (Todos_seq db + 1) = None.
Proof.
  intros [Hst _]. destruct (Todos db !! (Todos_seq db + 1)) as [t|] eqn:Hk; [|done].
  specialize (Hst _ _ Hk). simpl in Hst. lia.
Qed.

Lemma accepted_createTodo_values (db : DB) (body : PartialTodo.t) :
  accepted db (createTodo_values body) = true
  ↔ (∀ title, PartialTodo.title body = Some title → is_Some (varchar255 title))
    ∧ is_Some (varchar255 (or_else (PartialTodo.priority body) "medium"))
    ∧ references_Category db (default None (PartialTodo.category_id body)) = true.
Proof.
  unfold accepted, stored_string. simpl.
  destruct (PartialTodo.title body) as [title|]; simpl.
  - destruct (varchar255 title) as [title'|] eqn:Hv; simpl.
    + destruct (varchar255 (or_else (PartialTodo.priority body) "medium")); simpl.
      * split; [|by intros (_ & _ & ?)]. intros Hfk.
        split; [|split; [by eexists|done]].
        intros ? [= <-]. rewrite Hv. by eexists.
      * split; [done|]. intros (_ & [? ?] & _). done.
    + split; [done|]. intros (Htitle & _). destruct (Htitle title eq_refl). congruence.
  - destruct (varchar255 (or_else (PartialTodo.priority body) "medium")); simpl.
    + split; [|by intros (_ & _ & ?)]. intros Hfk.
      split; [done|split; [by eexists|done]].
    + split; [done|]. intros (_ & [? ?] & _). done.
Qed.

(** X3.  Where no key is beyond the sequence, [createTodo] succeeds exactly
    when the request has a title, the title and the priority (or "medium")
    fit their columns, and [category_id] is absent, null or the [id] of a
    stored category.  Otherwise the reply is the failure of the catch block
    and no row is added or changed; without a title the store is not touched
    at all. *)
Theorem createTodo_succeeds_iff (body : PartialTodo.t) (now : Z) (db : DB) :
  sequences_ahead db →
  ((∃ d, (createTodo body now db).1
         = Success 201 (Some d) (Some "Todo created successfully"))
   ↔ (∃ title, PartialTodo.title body = Some title ∧ is_Some (varchar255 title))
     ∧ is_Some (varchar255 (or_else (PartialTodo.priority body) "medium"))
     ∧ references_Category db (default None (PartialTodo.category_id body)) = true)
  ∧ ((createTodo body now db).1 = Failure 400 "Error creating todo"
     ∨ ∃ d, (createTodo body now db).1
            = Success 201 (Some d) (Some "Todo created successfully"))
  ∧ ((createTodo body now db).1 = Failure 400 "Error creating todo" →
     Todos (createTodo body now db).2 = Todos db
     ∧ Categories (createTodo body now db).2 = Categories db)
  ∧ (PartialTodo.title body = None → createTodo body now db
                                     = (Failure 400 "Error creating todo", db)).
Proof.
  intros Hseq. pose proof (next_key_free db Hseq) as Hfree.
  pose proof (accepted_createTodo_values db body) as Hacc.
  rewrite createTodo_eq. cbv zeta. rewrite Hfree.
  rewrite (bool_decide_eq_false_2 (is_Some (@None Todo.t))) by apply is_Some_None.
  rewrite andb_true_r.
  destruct (PartialTodo.title body) as [title|] eqn:Htitle.
  - destruct (accepted db (createTodo_values body)) eqn:Ha; simpl.
    + destruct (proj1 Hacc eq_refl) as (Ht & Hp & Hfk).
      split; [|split; [|split]]; try done.
      * split; [|by eexists]. intros _. split; [|done]. exists title. split; [done|].
        by apply Ht.
      * right. by eexists.
    + split; [|split; [|split]]; try done.
      * split; [by intros [? ?]|]. intros ((title' & [= <-] & Ht) & Hp & Hfk).
        assert (false = true); [|done]. apply Hacc.
        split; [|done]. by intros ? [= <-].
      * by left.
      * intros _. by destruct (fits _).
  - simpl. split; [|split; [|split]]; try done.
    + split; [by intros [? ?]|]. by intros ((? & ? & _) & _).
    + by left.
Qed.

Lemma createTodo_succeeds_iff_witness :
  ∃ d, (createTodo (second_in_category 1) 200 work_db).1
       = Success 201 (Some d) (Some "Todo created successfully").
Proof.
  assert (sequences_ahead work_db) as Hseq by decided.
  apply (proj1 (createTodo_succeeds_iff (second_in_category 1) 200 work_db Hseq)).
  split; [|split].
  - exists "second". split; [reflexivity|]. by eexists.
  - by eexists.
  - reflexivity.
Defined.

(** X4.  A todo that was created is read back as it was returned.  Where no
    key is beyond the sequence, a request with a title and a priority that
    fit, a due date that is not the number 0, and a category that is stored
    if there is one, is answered with a
    todo that has the next value of the sequence as [id], the title, the
    description, the due date and the category of the request (null where
    the request has none), the priority of the request or "medium" when it
    is missing or empty, [completed] false and [createdAt] the time of the
    request; and [getTodoById] of that [id] returns the same todo. *)
Theorem createTodo_then_getTodoById (body : PartialTodo.t) (now : Z) (db : DB)
    (title : string) :
  sequences_ahead db →
  PartialTodo.title body = Some title →
  PartialTodo.due_date body ≠ Some (Some 0) →
  (String.length title ≤ 255)%nat →
  (String.length (or_else (PartialTodo.priority body) "medium") ≤ 255)%nat →
  references_Category db (default None (PartialTodo.category_id body)) = true →
  ∃ d,
    (createTodo body now db).1
      = Success 201 (Some d) (Some "Todo created successfully")
    ∧ getTodoById (TodoJson.id d) (createTodo body now db).2
      = (Success 200 d None, (createTodo body now db).2)
    ∧ TodoJson.id d = Todos_seq db + 1
    ∧ TodoJson.todo d
      = {| Todo.title := title;
           Todo.description := default None (PartialTodo.description body);
           Todo.completed := false;
           Todo.priority := or_else (PartialTodo.priority body) "medium";
           Todo.due_date := default None (PartialTodo.due_date body);
           Todo.category_id := default None (PartialTodo.category_id body);
           Todo.createdAt := now |}
    ∧ d = include_category db (TodoJson.id d, TodoJson.todo d).
Proof.
  intros Hseq Htitle Hdue Hlen Hprio Hfk.
  assert (or_null (PartialTodo.due_date body) = default None (PartialTodo.due_date body))
    as Hnull.
  { destruct (PartialTodo.due_date body) as [[d|]|]; [|done..]. simpl.
    destruct (Z.eqb_spec d 0) as [->|]; done. }
  pose proof (next_key_free db Hseq) as Hfree.
  assert (accepted db (createTodo_values body) = true) as Hacc.
  { apply accepted_createTodo_values. rewrite Htitle.
    split; [|split; [|done]].
    - intros ? [= <-]. rewrite varchar255_fits by done. by eexists.
    - rewrite varchar255_fits by done. by eexists. }
  rewrite createTodo_eq, Htitle, Hacc. cbv zeta. rewrite Hfree.
  rewrite (bool_decide_eq_false_2 (is_Some (@None Todo.t))) by apply is_Some_None.
  simpl. eexists. split; [reflexivity|]. simpl.
  rewrite getTodoById_eq. simpl. rewrite lookup_insert_eq.
  split; [reflexivity|]. split; [reflexivity|].
  unfold Todo_set. simpl. rewrite Htitle, Hnull. simpl.
  rewrite !varchar255_fits by done. simpl. split; reflexivity.
Qed.

Lemma createTodo_then_getTodoById_witness :
  (∃ d,
     (createTodo (second_in_category 1) 200 work_db).1
       = Success 201 (Some d) (Some "Todo created successfully")
     ∧ getTodoById (TodoJson.id d) (createTodo (second_in_category 1) 200 work_db).2
       = (Success 200 d None, (createTodo (second_in_category 1) 200 work_db).2)
     ∧ TodoJson.id d = 2
     ∧ TodoJson.todo d = Todo.mk "second" None false "medium" None (Some 1) 200
     ∧ d = include_category work_db (TodoJson.id d, TodoJson.todo d))
  ∧ (∃ d,
       (createTodo (due 300) 200 work_db).1
         = Success 201 (Some d) (Some "Todo created successfully")
       ∧ getTodoById (TodoJson.id d) (createTodo (due 300) 200 work_db).2
         = (Success 200 d None, (createTodo (due 300) 200 work_db).2)
       ∧ TodoJson.id d = 2
       ∧ TodoJson.todo d = Todo.mk "due" None false "medium" (Some 300) None 200
       ∧ d = include_category work_db (TodoJson.id d, TodoJson.todo d)).
Proof.
  assert (sequences_ahead work_db) as Hseq by decided.
  split.
  - apply (createTodo_then_getTodoById (second_in_category 1) 200 work_db "second" Hseq);
      [reflexivity | discriminate | simpl; lia | simpl; lia | reflexivity].
  - apply (createTodo_then_getTodoById (due 300) 200 work_db "due" Hseq);
      [reflexivity | discriminate | simpl; lia | simpl; lia | reflexivity].
Defined.

(** X5.  Let [id] be of the key column's type.  [deleteTodo] on an [id]
    that is not stored replies with the not-found failure and writes
    nothing.  On a stored todo it succeeds and removes that row and nothing
    else; afterwards [getTodoById] and a second [deleteTodo] of the same
    [id] are answered with the not-found failure. *)
Theorem deleteTodo_removes (id : Z) (db : DB) :
  INTEGER id →
  (Todos db !! id = None →
     NotFoundError (deleteTodo id db).1 ∧ (deleteTodo id db).2 = db)
  ∧ (is_Some (Todos db !! id) →
       (deleteTodo id db).1 = Success 200 tt (Some "Todo deleted successfully")
       ∧ Todos (deleteTodo id db).2 = delete id (Todos db)
       ∧ Categories (deleteTodo id db).2 = Categories db
       ∧ Todos_seq (deleteTodo id db).2 = Todos_seq db
       ∧ NotFoundError (getTodoById id (deleteTodo id db).2).1
       ∧ NotFoundError (deleteTodo id (deleteTodo id db).2).1
       ∧ (deleteTodo id (deleteTodo id db).2).2 = (deleteTodo id db).2).
Proof.
  intros _. rewrite deleteTodo_eq. split.
  - intros ->. split; [by left|reflexivity].
  - intros [t ->]. simpl. rewrite getTodoById_eq, deleteTodo_eq. simpl.
    rewrite lookup_delete_eq. repeat split; by left.
Qed.

Lemma deleteTodo_removes_witness :
  (NotFoundError (deleteTodo 2 one_todo).1 ∧ (deleteTodo 2 one_todo).2 = one_todo)
  ∧ (deleteTodo 1 one_todo).1 = Success 200 tt (Some "Todo deleted successfully")
  ∧ Todos (deleteTodo 1 one_todo).2 = delete 1 (Todos one_todo)
  ∧ Categories (deleteTodo 1 one_todo).2 = Categories one_todo
  ∧ Todos_seq (deleteTodo 1 one_todo).2 = Todos_seq one_todo
  ∧ NotFoundError (getTodoById 1 (deleteTodo 1 one_todo).2).1
  ∧ NotFoundError (deleteTodo 1 (deleteTodo 1 one_todo).2).1
  ∧ (deleteTodo 1 (deleteTodo 1 one_todo).2).2 = (deleteTodo 1 one_todo).2.
Proof.
  assert (INTEGER 1 ∧ INTEGER 2) as [H1 H2] by (unfold INTEGER; lia).
  split.
  - apply (proj1 (deleteTodo_removes 2 one_todo H2)). reflexivity.
  - apply (proj2 (deleteTodo_removes 1 one_todo H1)). by eexists.
Defined.

(** X6.  [toggleTodoComplete] changes nothing but [completed]: the row of
    the todo is the old row with [completed] negated, every other row, the
    categories and the sequences are as before. *)
Theorem toggleTodoComplete_frame (id : Z) (db : DB) (t : Todo.t) :
  Todos db !! id = Some t →
  (toggleTodoComplete id db).2
  = set_Todos
      (insert id
         {| Todo.title := Todo.title t; Todo.description := Todo.description t;
            Todo.completed := negb (Todo.completed t); Todo.priority := Todo.priority t;
            Todo.due_date := Todo.due_date t; Todo.category_id := Todo.category_id t;
            Todo.createdAt := Todo.createdAt t |})
      db.
Proof.
  intros Ht. rewrite toggleTodoComplete_eq, Ht. simpl. unfold set_Todos. f_equal.
  apply map_eq. intros k. destruct (decide (id = k)) as [<-|Hne].
  - by rewrite lookup_alter_eq, lookup_insert_eq, Ht.
  - by rewrite lookup_alter_ne, lookup_insert_ne.
Qed.

Lemma toggleTodoComplete_frame_witness :
  (toggleTodoComplete 1 one_todo).2
  = set_Todos (insert 1 (Todo.mk "first" None true "medium" None None 100)) one_todo.
Proof.
  exact (toggleTodoComplete_frame 1 one_todo
           (Todo.mk "first" None false "medium" None None 100) eq_refl).
Defined.

(** ** Updating a todo again, and with nothing *)

Lemma varchar255_idempotent (s s' : string) :
  varchar255 s = Some s' → varchar255 s' = Some s'.
Proof. intros Hs. apply varchar255_fits. by apply varchar255_length in Hs. Qed.

Lemma alter_same {A} (f : A → A) (k : Z) (m : gmap Z A) (x : A) :
  m !! k = Some x → f x = x → alter f k m = m.
Proof.
  intros Hk Hf. apply map_eq. intros i. destruct (decide (k = i)) as [<-|Hne].
  - by rewrite lookup_alter_eq, Hk; simpl; rewrite Hf.
  - by rewrite lookup_alter_ne.
Qed.

(** After an update that the store took, the same request merges to the
    row that is stored. *)
Lemma updateTodo_values_again (db : DB) (t : Todo.t) (body : PartialTodo.t) :
  accepted db (updateTodo_values t body) = true →
  accepted db (updateTodo_values (Todo_set (updateTodo_values t body) t) body) = true
  ∧ Todo_set (updateTodo_values (Todo_set (updateTodo_values t body) t) body)
      (Todo_set (updateTodo_values t body) t)
    = Todo_set (updateTodo_values t body) t.
Proof.
  unfold accepted, stored_string, Todo_set, updateTodo_values. simpl.
  destruct body as [title description category_id priority due_date completed]. simpl.
  destruct (varchar255 (default (Todo.title t) title)) as [title'|] eqn:Htitle;
    [|done].
  destruct (varchar255 (default (Todo.priority t) priority)) as [priority'|] eqn:Hpriority;
    [|done].
  simpl. intros Hfk.
  assert (varchar255 (default title' title) = Some title') as Htitle'.
  { destruct title as [s|]; simpl in *; [done|]. by eapply varchar255_idempotent. }
  assert (varchar255 (default priority' priority) = Some priority') as Hpriority'.
  { destruct priority as [s|]; simpl in *; [done|]. by eapply varchar255_idempotent. }
  rewrite Htitle', Hpriority'. simpl. split.
  - by destruct category_id.
  - f_equal; by repeat match goal with
                       | |- context [default _ ?o] => is_var o; destruct o
                       end.
Qed.

(** X7.  [updateTodo] is idempotent: the same request on the same [id] a
    second time is answered as the first time and leaves the store as the
    first left it. *)
Theorem updateTodo_idempotent (id : Z) (body : PartialTodo.t) (db : DB) :
  (updateTodo id body (updateTodo id body db).2).2 = (updateTodo id body db).2
  ∧ (updateTodo id body (updateTodo id body db).2).1 = (updateTodo id body db).1.
Proof.
  rewrite (updateTodo_eq id body db).
  destruct (Todos db !! id) as [t|] eqn:Ht; simpl.
  2: { rewrite updateTodo_eq, Ht. by split. }
  destruct (accepted db (updateTodo_values t body)) eqn:Hacc; simpl.
  2: { rewrite updateTodo_eq, Ht, Hacc. by split. }
  destruct (updateTodo_values_again db t body Hacc) as [Hacc' Hset].
  set (v := updateTodo_values t body) in *. set (t' := Todo_set v t) in *.
  rewrite updateTodo_eq. simpl. rewrite lookup_alter_eq, Ht. simpl. fold t'.
  assert (accepted (set_Todos (alter (Todo_set v) id) db) (updateTodo_values t' body)
          = true) as ->.
  { revert Hacc'. unfold accepted, references_Category. by simpl. }
  simpl. rewrite Hset.
  assert (alter (Todo_set (updateTodo_values t' body)) id (alter (Todo_set v) id (Todos db))
          = alter (Todo_set v) id (Todos db)) as Halter.
  { apply (alter_same _ _ _ t'); [|exact Hset]. by rewrite lookup_alter_eq, Ht. }
  unfold set_Todos. simpl. rewrite Halter. by split.
Qed.

(** X8.  In a consistent store, [updateTodo] of a stored todo with a request
    that has none of the six fields succeeds, returns the todo as it is and
    changes nothing. *)
Theorem updateTodo_no_fields (id : Z) (db : DB) (t : Todo.t) :
  consistent db →
  Todos db !! id = Some t →
  updateTodo id no_fields db
  = (Success 200 (Some (include_category db (id, t))) (Some "Todo updated successfully"),
     db).
Proof.
  intros (_ & [Hft _] & Hri) Ht. destruct (Hft id t Ht) as [Htitle Hpriority].
  specialize (Hri id t Ht). simpl in Hri.
  rewrite updateTodo_eq, Ht.
  assert (accepted db (updateTodo_values t no_fields) = true) as ->.
  { unfold accepted, stored_string. simpl. by rewrite !varchar255_fits. }
  assert (Todo_set (updateTodo_values t no_fields) t = t) as Hset.
  { unfold Todo_set. simpl. rewrite !varchar255_fits by done. by destruct t. }
  cbv zeta. rewrite Hset.
  assert (set_Todos (alter (Todo_set (updateTodo_values t no_fields)) id) db = db) as ->;
    [|reflexivity].
  unfold set_Todos. rewrite (alter_same _ _ _ t) by done. by destruct db.
Qed.

Lemma updateTodo_no_fields_witness :
  updateTodo 1 no_fields work_db
  = (Success 200
       (Some (include_category work_db
                (1, Todo.mk "first" None false "medium" None None 100)))
       (Some "Todo updated successfully"),
     work_db).
Proof.
  assert (consistent work_db) as Hdb by decided.
  exact (updateTodo_no_fields 1 work_db _ Hdb eq_refl).
Defined.

(** ** What [getTodos] returns *)

Section Items.
Context `{Engine}.

Lemma items_eq (q : Query.t) (db : DB) :
  items (getTodos q db) = [] ∨ items (getTodos q db) = include_category db <$> window q db.
Proof.
  unfold items. rewrite getTodos_eq. simpl. destruct (_ && _); [by right|by left].
Qed.

Lemma window_sublist (q : Query.t) (db : DB) :
  window q db `sublist_of` order_by_createdAt_desc (matching (build_where q) db).
Proof. unfold window. etrans; [apply sublist_take|apply sublist_drop]. Qed.

Lemma window_matching (q : Query.t) (db : DB) (i : Z * Todo.t) :
  i ∈ window q db →
  Todos db !! i.1 = Some i.2 ∧ where_matches (build_where q) i.2 = true.
Proof.
  intros Hi. pose proof (elem_of_sublist _ _ _ Hi (window_sublist q db)) as Hi'.
  clear Hi. rename Hi' into Hi.
  rewrite order_by_Permutation in Hi. unfold matching in Hi.
  apply list_elem_of_filter in Hi as [Hm Hi]. split; [|done].
  destruct i as [k t]. by apply elem_of_map_to_list.
Qed.

Lemma NoDup_window (q : Query.t) (db : DB) : NoDup (window q db).*1.
Proof.
  eapply sublist_NoDup; [|apply fmap_sublist, window_sublist].
  rewrite order_by_Permutation. unfold matching.
  eapply sublist_NoDup; [|apply fmap_sublist, sublist_filter].
  apply NoDup_fst_map_to_list.
Qed.

Lemma items_window (q : Query.t) (db : DB) (d : TodoJson.t) :
  d ∈ items (getTodos q db) →
  ∃ i, i ∈ window q db ∧ d = include_category db i.
Proof.
  destruct (items_eq q db) as [->| ->]; [by intros ?%not_elem_of_nil|].
  intros (i & -> & Hi)%list_elem_of_fmap. eauto.
Qed.

End Items.

(** X9.  [getTodos] reads only, and what it returns is in the store: it
    writes nothing, whatever the request; every item is a stored todo, under
    its [id], together with its category as it is stored; where the search
    is one of ASCII text, the item satisfies the condition built from the
    request; and no [id] is returned twice. *)
Theorem getTodos_items_stored `{Engine} (q : Query.t) (db : DB) :
  (getTodos q db).2 = db
  ∧ (∀ d, d ∈ items (getTodos q db) →
       Todos db !! TodoJson.id d = Some (TodoJson.todo d)
       ∧ d = include_category db (TodoJson.id d, TodoJson.todo d)
       ∧ (ascii_search q db →
          where_matches (build_where q) (TodoJson.todo d) = true))
  ∧ NoDup (TodoJson.id <$> items (getTodos q db)).
Proof.
  split; [apply getTodos_store|]. split.
  - intros d (i & Hi & ->)%items_window. simpl.
    destruct (window_matching q db i Hi) as [Hk Hm]. by destruct i.
  - destruct (items_eq q db) as [->| ->]; [constructor|].
    rewrite <- list_fmap_compose.
    replace (TodoJson.id ∘ include_category db) with (fst : Z * Todo.t → Z) by done.
    apply NoDup_window.
Qed.

(** X10.  The filters of a request bind together.  Each item has the
    priority of the request, when that is there and not empty; is in the
    category whose [id] the request's [category] denotes, when that is there
    and not empty; and is completed exactly when [completed] of the request
    is the string "true", when [completed] is there at all: any other
    string, "false" or not, asks for the todos that are not completed. *)
Theorem getTodos_items_filtered `{Engine} (q : Query.t) (db : DB) (d : TodoJson.t) :
  d ∈ items (getTodos q db) →
  (∀ p, Query.priority q = Some p → p ≠ "" → Todo.priority (TodoJson.todo d) = p)
  ∧ (∀ c, Query.category q = Some c → c ≠ "" →
       ∃ k, int_literal c = Some k ∧ Todo.category_id (TodoJson.todo d) = Some k)
  ∧ (∀ s, Query.completed q = Some s →
       Todo.completed (TodoJson.todo d) = String.eqb s "true").
Proof.
  intros (i & Hi & ->)%items_window. simpl.
  destruct (window_matching q db i Hi) as [_ Hm].
  unfold where_matches, build_where in Hm. simpl in Hm.
  apply andb_prop in Hm as [Hm Hcompleted]. apply andb_prop in Hm as [Hm Hpriority].
  apply andb_prop in Hm as [_ Hcategory].
  split; [|split].
  - intros p Hp Hne. rewrite Hp in Hpriority.
    assert (truthy p = true) as Htr
      by (unfold truthy; apply negb_true_iff; by apply String.eqb_neq).
    rewrite Htr in Hpriority. by apply String.eqb_eq.
  - intros c Hc Hne. rewrite Hc in Hcategory.
    assert (truthy c = true) as Htr
      by (unfold truthy; apply negb_true_iff; by apply String.eqb_neq).
    rewrite Htr in Hcategory. destruct (int_literal c) as [k|]; [|done].
    exists k. split; [done|]. by apply bool_decide_eq_true in Hcategory.
  - intros s Hs. rewrite Hs in Hcompleted. by apply Bool.eqb_prop.
Qed.

(** X11.  In a consistent store no category is missing from an item: an
    item whose todo is in a category shows that category's stored name and
    color. *)
Theorem getTodos_items_category `{Engine} (q : Query.t) (db : DB) (d : TodoJson.t) (c : Z) :
  consistent db →
  d ∈ items (getTodos q db) →
  Todo.category_id (TodoJson.todo d) = Some c →
  ∃ category,
    Categories db !! c = Some category
    ∧ TodoJson.category d = Some (c, Category.name category, Category.color category).
Proof.
  intros (_ & _ & Hri) (i & Hi & ->)%items_window Hc. simpl in *.
  destruct (window_matching q db i Hi) as [Hk _].
  specialize (Hri _ _ Hk). simpl in Hri. rewrite Hc in Hri |- *. simpl in Hri.
  apply bool_decide_eq_true in Hri as [category Hcat]. exists category.
  by rewrite Hcat.
Qed.

Lemma getTodos_items_stored_witness :
  Todos one_todo !! 1 = Some (Todo.mk "first" None false "medium" None None 100)
  ∧ @where_matches engine_id_asc (build_where (search_for "FIRST"))
      (Todo.mk "first" None false "medium" None None 100) = true.
Proof.
  assert (TodoJson.mk 1 (Todo.mk "first" None false "medium" None None 100) None
          ∈ items (@getTodos engine_id_asc (search_for "FIRST") one_todo)) as Hd
    by (vm_compute; apply list_elem_of_here).
  destruct (proj1 (proj2 (@getTodos_items_stored engine_id_asc (search_for "FIRST")
                            one_todo)) _ Hd) as (Hk & _ & Hm).
  split; [exact Hk|]. apply Hm. split; [reflexivity|]. decided.
Defined.

Lemma getTodos_items_filtered_witness :
  Todo.priority (Todo.mk "first" None false "medium" None None 100) = "medium"
  ∧ Todo.completed (Todo.mk "first" None false "medium" None None 100)
    = String.eqb "yes" "true".
Proof.
  assert (TodoJson.mk 1 (Todo.mk "first" None false "medium" None None 100) None
          ∈ items (@getTodos engine_id_asc medium_yes one_todo)) as Hd
    by (vm_compute; apply list_elem_of_here).
  destruct (@getTodos_items_filtered engine_id_asc medium_yes one_todo _ Hd)
    as (Hp & _ & Hc).
  split.
  - apply (Hp "medium" eq_refl). discriminate.
  - apply (Hc "yes" eq_refl).
Defined.

Lemma getTodos_items_category_witness :
  ∃ category,
    Categories first_in_work !! 1 = Some category
    ∧ Some (1, "Work", "#0000ff")
      = Some (1, Category.name category, Category.color category).
Proof.
  assert (consistent first_in_work) as Hdb by decided.
  assert (TodoJson.mk 1 (Todo.mk "first" None true "medium" None (Some 1) 100)
            (Some (1, "Work", "#0000ff"))
          ∈ items (@getTodos engine_id_asc everything first_in_work)) as Hd
    by (vm_compute; apply list_elem_of_here).
  exact (@getTodos_items_category engine_id_asc everything first_in_work _ 1
           Hdb Hd eq_refl).
Defined.

(** ** When the order of the items is the store's *)

Lemma where_matches_engines (E1 E2 : Engine) (w : Where) (t : Todo.t) :
  (∀ s, @int_literal E1 s = @int_literal E2 s) →
  @where_matches E1 w t = @where_matches E2 w t.
Proof.
  intros Hlit. unfold where_matches.
  destruct (where_category_id w) as [c|]; [|reflexivity]. by rewrite Hlit.
Qed.

Lemma matching_engines (E1 E2 : Engine) (w : Where) (db : DB) :
  (∀ s, @int_literal E1 s = @int_literal E2 s) →
  @matching E1 w db = @matching E2 w db.
Proof.
  intros Hlit. unfold matching. apply list_filter_iff. intros i.
  by rewrite (where_matches_engines E1 E2).
Qed.

Lemma order_by_engines (E1 E2 : Engine) (db : DB) (l : list (Z * Todo.t)) :
  distinct_createdAt db →
  (∀ i, i ∈ l → Todos db !! i.1 = Some i.2) →
  @order_by_createdAt_desc E1 l = @order_by_createdAt_desc E2 l.
Proof.
  intros Hdistinct Hl. apply (StronglySorted_unique_strong createdAt_desc).
  - intros [k1 t1] [k2 t2] H1 H2 H12 H21.
    rewrite order_by_Permutation in H1. rewrite order_by_Permutation in H2.
    apply Hl in H1, H2. simpl in *. unfold createdAt_desc in *. simpl in *.
    assert (k1 = k2) as -> by (apply (Hdistinct k1 k2 t1 t2); [done..|lia]).
    congruence.
  - apply Sorted_StronglySorted; [apply _|apply order_by_Sorted].
  - apply Sorted_StronglySorted; [apply _|apply order_by_Sorted].
  - by rewrite !order_by_Permutation.
Qed.

Lemma matching_stored `{Engine} (w : Where) (db : DB) (i : Z * Todo.t) :
  i ∈ matching w db → Todos db !! i.1 = Some i.2.
Proof.
  unfold matching. intros [_ Hi]%list_elem_of_filter.
  destruct i. by apply elem_of_map_to_list.
Qed.

Lemma where_well_typed_engines (E1 E2 : Engine) (w : Where) :
  (∀ s, @int_literal E1 s = @int_literal E2 s) →
  @where_well_typed E1 w = @where_well_typed E2 w.
Proof.
  intros Hlit. unfold where_well_typed. destruct (where_category_id w); [|done].
  by rewrite Hlit.
Qed.

Lemma page_of_engines (E1 E2 : Engine) (q : Query.t) (db : DB) :
  (∀ s, @int_literal E1 s = @int_literal E2 s) →
  distinct_createdAt db →
  @page_of E1 q db = @page_of E2 q db.
Proof.
  intros Hlit Hdistinct.
  unfold page_of, window. rewrite (matching_engines E1 E2) by done.
  rewrite (order_by_engines E1 E2 db); [reflexivity|done|].
  intros i. apply matching_stored.
Qed.

(** X12.  Where no two todos were created at the same time, the engine has
    no say in the reply: two engines that read integer literals alike give
    the same reply to every request. *)
Theorem getTodos_engine_independent (E1 E2 : Engine) (q : Query.t) (db : DB) :
  (∀ s, @int_literal E1 s = @int_literal E2 s) →
  distinct_createdAt db →
  @getTodos E1 q db = @getTodos E2 q db.
Proof.
  intros Hlit Hdistinct. rewrite !getTodos_eq.
  rewrite (where_well_typed_engines E1 E2) by done.
  destruct (_ && _); [|reflexivity].
  by rewrite (page_of_engines E1 E2).
Qed.

Lemma NoDup_fmap_inj {A B} (f : A → B) (l : list A) (x y : A) :
  NoDup (f <$> l) → x ∈ l → y ∈ l → f x = f y → x = y.
Proof.
  induction l as [|a l IH]; [by intros _ ?%not_elem_of_nil|].
  rewrite fmap_cons, NoDup_cons. intros [Ha Hl] Hx Hy Hf.
  apply elem_of_cons in Hx as [->|Hx]; apply elem_of_cons in Hy as [->|Hy].
  - reflexivity.
  - destruct Ha. rewrite Hf. by apply list_elem_of_fmap_2.
  - destruct Ha. rewrite <- Hf. by apply list_elem_of_fmap_2.
  - by apply IH.
Qed.

(** A way to check [distinct_createdAt] by evaluation. *)
Lemma distinct_createdAt_NoDup (db : DB) :
  NoDup ((λ i : Z * Todo.t, Todo.createdAt i.2) <$> map_to_list (Todos db)) →
  distinct_createdAt db.
Proof.
  intros Hnd k1 k2 t1 t2 H1 H2 Hc.
  apply elem_of_map_to_list in H1, H2.
  by pose proof (NoDup_fmap_inj _ _ (k1, t1) (k2, t2) Hnd H1 H2 Hc) as [= -> _].
Qed.

Ltac distinct := apply distinct_createdAt_NoDup; decided.

Lemma getTodos_engine_independent_witness :
  @getTodos engine_id_asc everything one_after_another
  = @getTodos engine_id_desc everything one_after_another.
Proof.
  apply getTodos_engine_independent; [reflexivity|distinct].
Defined.

Lemma concat_slices {A B} (f : A → B) (l : list A) (m n : nat) :
  List.concat ((λ k, f <$> take m (drop (k * m) l)) <$> seq 0 n) = f <$> take (n * m) l.
Proof.
  induction n as [|n IH]; [reflexivity|].
  rewrite seq_S, fmap_app, concat_app, IH. simpl. rewrite app_nil_r.
  rewrite <- fmap_app, take_take_drop. f_equal. f_equal. lia.
Qed.

Lemma build_where_on_page (q : Query.t) (k limit : Z) :
  build_where (on_page q k limit) = build_where q.
Proof. reflexivity. Qed.

(** X13.  Walking the pages visits every matching todo once.  Let no two
    todos be created at the same time, let [limit] be positive and the
    filter be one the engine takes, with a search of ASCII text, and let [n]
    pages of [limit] rows be enough for the matching rows, [n * limit] being
    no more than [MAX_SAFE_INTEGER].  Then the items of the pages 1 to [n],
    one after the other, are the matching todos, each once, in descending
    order of [createdAt], whichever engine answers which request as long as
    all read integer literals alike. *)
Theorem getTodos_pages_cover (E : Engine) (Ek : nat → Engine) (q : Query.t) (db : DB)
    (limit : Z) (n : nat) :
  0 < limit →
  Z.of_nat n * limit ≤ MAX_SAFE_INTEGER →
  (∀ k s, @int_literal (Ek k) s = @int_literal E s) →
  @where_well_typed E (build_where q) = true →
  ascii_search q db →
  distinct_createdAt db →
  Z.of_nat (List.length (@matching E (build_where q) db)) ≤ Z.of_nat n * limit →
  List.concat ((λ k, items (@getTodos (Ek k) (on_page q (Z.of_nat k) limit) db)) <$> seq 1 n)
  = (include_category db <$> @order_by_createdAt_desc E (@matching E (build_where q) db)).
Proof.
  intros Hlimit Hsafe Hlit Hw _ Hdistinct Hn.
  rewrite <- (take_ge (order_by_createdAt_desc _) (n * Z.to_nat limit)).
  2: { rewrite length_ordered. nia. }
  rewrite <- (concat_slices (include_category db)).
  rewrite <- (fmap_S_seq 0 n), <- list_fmap_compose. f_equal.
  apply list_fmap_ext. intros i k [-> Hk]%lookup_seq. unfold compose. cbv beta.
  unfold items.
  rewrite getTodos_valid;
    [|simpl; lia|done|simpl; nia|simpl; nia
     |by rewrite build_where_on_page, (where_well_typed_engines (Ek (S (0 + i))) E)].
  rewrite (page_of_engines (Ek (S (0 + i))) E) by done. simpl.
  unfold window. simpl. rewrite build_where_on_page.
  do 3 f_equal. lia.
Qed.

Lemma getTodos_pages_cover_witness :
  List.concat ((λ k, items (@getTodos (if Nat.even k then engine_id_asc else engine_id_desc)
                         (on_page everything (Z.of_nat k) 1) one_after_another))
            <$> seq 1 2)
  = (include_category one_after_another
       <$> @order_by_createdAt_desc engine_id_asc
             (@matching engine_id_asc (build_where everything) one_after_another)).
Proof.
  apply (getTodos_pages_cover engine_id_asc
           (λ k, if Nat.even k then engine_id_asc else engine_id_desc)
           everything one_after_another 1 2);
    [lia | unfold MAX_SAFE_INTEGER; lia | by intros k s; destruct (Nat.even k)
    | reflexivity | exact I | distinct | vm_compute; discriminate].
Defined.

Lemma where_matches_spec_witness :
  @where_matches engine_id_asc (build_where (search_for "MILK"))
    (Todo.mk "Buy milk" None false "medium" None None 100)
  = @spec_matches engine_id_asc (search_for "MILK")
      (Todo.mk "Buy milk" None false "medium" None None 100).
Proof.
  apply (@where_matches_spec engine_id_asc);
    [split; reflexivity | reflexivity | discriminate | discriminate].
Defined.

(** ** Creating, renaming and reading categories *)

Lemma next_category_key_free (db : DB) :
  sequences_ahead db → Categories db !! (Categories_seq db + 1) = None.
Proof.
  intros [_ Hsc].
  destruct (Categories db !! (Categories_seq db + 1)) as [c|] eqn:Hk; [|done].
  specialize (Hsc _ _ Hk). simpl in Hsc. lia.
Qed.

(** X14.  Where no key is beyond the sequence, [createCategory] with a name
    of at most 255 characters that no stored category has, and a color of
    at most 255 characters, succeeds: the category is stored under the next
    value of the sequence with the name of the request and its color, or
    "#1890ff" when the request has no color or an empty one; no other
    category and no todo is changed.  Without a name the reply is the
    failure of the catch block and the store is not touched. *)
Theorem createCategory_stores (body : PartialCategory.t) (db : DB) :
  (∀ name,
     sequences_ahead db →
     PartialCategory.name body = Some name →
     (String.length name ≤ 255)%nat →
     (String.length (or_else (PartialCategory.color body) "#1890ff") ≤ 255)%nat →
     (∀ k c, Categories db !! k = Some c → Category.name c ≠ name) →
     (createCategory body db).1
       = Success 201
           (Categories_seq db + 1,
            {| Category.name := name;
               Category.color := or_else (PartialCategory.color body) "#1890ff" |})
           (Some "Category created successfully")
     ∧ Categories (createCategory body db).2
       = <[Categories_seq db + 1 :=
             {| Category.name := name;
                Category.color := or_else (PartialCategory.color body) "#1890ff" |}]>
           (Categories db)
     ∧ Categories db !! (Categories_seq db + 1) = None
     ∧ Todos (createCategory body db).2 = Todos db)
  ∧ (PartialCategory.name body = None →
     createCategory body db = (Failure 400 "Error creating category", db)).
Proof.
  rewrite createCategory_eq. split.
  - intros name Hseq -> Hname Hcolor Hfree.
    apply name_taken_false in Hfree. rewrite Hfree. cbv zeta.
    rewrite !varchar255_fits by done.
    rewrite (next_category_key_free db Hseq).
    rewrite (bool_decide_eq_false_2 (is_Some (@None Category.t))) by apply is_Some_None.
    done.
  - by intros ->.
Qed.

Lemma createCategory_stores_witness :
  (createCategory (renamed "Errands") two_categories).1
    = Success 201
        (3, {| Category.name := "Errands"; Category.color := "#1890ff" |})
        (Some "Category created successfully")
  ∧ Categories (createCategory (renamed "Errands") two_categories).2
    = <[3 := {| Category.name := "Errands"; Category.color := "#1890ff" |}]>
        (Categories two_categories)
  ∧ Categories two_categories !! 3 = None
  ∧ Todos (createCategory (renamed "Errands") two_categories).2 = Todos two_categories.
Proof.
  assert (sequences_ahead two_categories) as Hseq by decided.
  apply (proj1 (createCategory_stores (renamed "Errands") two_categories) "Errands" Hseq);
    [reflexivity | simpl; lia | simpl; lia |].
  intros k c Hk%elem_of_map_to_list. vm_compute in Hk.
  apply elem_of_cons in Hk as [[= -> ->]|Hk]; [discriminate|].
  apply list_elem_of_singleton in Hk as [= -> ->]. discriminate.
Defined.

(** X15.  A name cannot be created twice: once [createCategory] has
    succeeded with a name of at most 255 characters, every [createCategory]
    with that name is answered with the duplicate failure and writes
    nothing. *)
Theorem createCategory_twice (body body' : PartialCategory.t) (db : DB) (name : string)
    st c msg :
  (createCategory body db).1 = Success st c msg →
  PartialCategory.name body = Some name →
  (String.length name ≤ 255)%nat →
  PartialCategory.name body' = Some name →
  DuplicateError (createCategory body' (createCategory body db).2).1
  ∧ (createCategory body' (createCategory body db).2).2 = (createCategory body db).2.
Proof.
  rewrite (createCategory_eq body db). intros Hs Hbody Hname Hbody'.
  rewrite Hbody in Hs |- *.
  destruct (name_taken db name); [discriminate|]. cbv zeta in *.
  rewrite (varchar255_fits name) in Hs |- * by done.
  destruct (varchar255 (or_else (PartialCategory.color body) "#1890ff")) as [color|];
    [|discriminate].
  destruct (bool_decide _); [discriminate|]. simpl.
  rewrite createCategory_eq, Hbody'.
  assert (name_taken
            (set_Categories
               (insert (Categories_seq db + 1)
                  {| Category.name := name; Category.color := color |})
               (set_Categories_seq (Categories_seq db + 1) db)) name = true) as ->.
  { apply name_taken_true. eexists _, _. simpl. by rewrite lookup_insert_eq. }
  split; [by left|reflexivity].
Qed.

Lemma createCategory_twice_witness :
  DuplicateError (createCategory (renamed "Work") (createCategory work empty_db).2).1
  ∧ (createCategory (renamed "Work") (createCategory work empty_db).2).2
    = (createCategory work empty_db).2.
Proof.
  apply (createCategory_twice work (renamed "Work") empty_db "Work" 201%nat
           (1, Category.mk "Work" "#0000ff") (Some "Category created successfully"));
    [reflexivity | reflexivity | simpl; lia | reflexivity].
Defined.

Lemma names_unique_insert (db : DB) (id : Z) (c : Category.t) :
  names_unique db →
  Categories db !! id = None →
  (∀ k c', Categories db !! k = Some c' → Category.name c' ≠ Category.name c) →
  ∀ k1 k2 c1 c2,
    <[id := c]> (Categories db) !! k1 = Some c1 →
    <[id := c]> (Categories db) !! k2 = Some c2 →
    Category.name c1 = Category.name c2 → k1 = k2.
Proof.
  intros Hu Hid Hnew k1 k2 c1 c2.
  destruct (decide (id = k1)) as [<-|H1]; destruct (decide (id = k2)) as [<-|H2];
    rewrite ?lookup_insert_eq, ?lookup_insert_ne by done.
  - done.
  - intros [= <-] Hk2 Hname. destruct (Hnew _ _ Hk2). done.
  - intros Hk1 [= <-] Hname. destruct (Hnew _ _ Hk1). done.
  - apply Hu.
Qed.

Lemma names_unique_rename (db : DB) (id : Z) (c c' : Category.t) :
  names_unique db →
  Categories db !! id = Some c →
  (Category.name c' = Category.name c
   ∨ ∀ k x, Categories db !! k = Some x → Category.name x ≠ Category.name c') →
  ∀ k1 k2 c1 c2,
    <[id := c']> (Categories db) !! k1 = Some c1 →
    <[id := c']> (Categories db) !! k2 = Some c2 →
    Category.name c1 = Category.name c2 → k1 = k2.
Proof.
  intros Hu Hid Hnew k1 k2 c1 c2.
  destruct (decide (id = k1)) as [<-|H1]; destruct (decide (id = k2)) as [<-|H2];
    rewrite ?lookup_insert_eq, ?lookup_insert_ne by done.
  - done.
  - intros [= <-] Hk2 Hname. destruct Hnew as [Hsame|Hnew].
    + apply (Hu id k2 c c2); [done..|congruence].
    + destruct (Hnew _ _ Hk2). done.
  - intros Hk1 [= <-] Hname. destruct Hnew as [Hsame|Hnew].
    + apply (Hu k1 id c1 c); [done..|congruence].
    + destruct (Hnew _ _ Hk1). done.
  - apply Hu.
Qed.

Lemma alter_insert {A} (f : A → A) (k : Z) (m : gmap Z A) (x : A) :
  m !! k = Some x → alter f k m = <[k := f x]> m.
Proof.
  intros Hk. apply map_eq. intros i. destruct (decide (k = i)) as [<-|Hne].
  - by rewrite lookup_alter_eq, lookup_insert_eq, Hk.
  - by rewrite lookup_alter_ne, lookup_insert_ne.
Qed.

(** X16.  The controllers keep the names of the categories apart.  In a
    consistent store where no two categories have the same name, that is so
    again after [createCategory] and after [updateCategory] with a name of
    at most 255 characters or none, and after [deleteCategory]. *)
Theorem category_names_stay_unique (db : DB) :
  consistent db →
  names_unique db →
  (∀ body,
     (∀ name, PartialCategory.name body = Some name → (String.length name ≤ 255)%nat) →
     names_unique (createCategory body db).2)
  ∧ (∀ id body,
       (∀ name, PartialCategory.name body = Some name → (String.length name ≤ 255)%nat) →
       names_unique (updateCategory id body db).2)
  ∧ (∀ id, names_unique (deleteCategory id db).2).
Proof.
  intros (Hseq & [_ Hfc] & _) Hu. split; [|split].
  - intros body Hlen. rewrite createCategory_eq.
    destruct (PartialCategory.name body) as [name|] eqn:Hbody; [|done].
    destruct (name_taken db name) eqn:Htaken; [done|]. cbv zeta.
    rewrite (varchar255_fits name) by (by apply Hlen).
    destruct (varchar255 (or_else (PartialCategory.color body) "#1890ff")); [|done].
    rewrite (next_category_key_free db Hseq).
    rewrite (bool_decide_eq_false_2 (is_Some (@None Category.t))) by apply is_Some_None.
    unfold names_unique. simpl. apply names_unique_insert; [done| |].
    + by apply next_category_key_free.
    + by apply name_taken_false.
  - intros id body Hlen. rewrite updateCategory_eq.
    destruct (Categories db !! id) as [c|] eqn:Hc; [|done].
    destruct (Hfc id c Hc) as [Hfit _].
    destruct (match new_name c body with Some _ => _ | None => _ end) eqn:Hcheck; [done|].
    destruct (varchar255 (or_else (PartialCategory.name body) (Category.name c)))
      as [name'|] eqn:Hname; [|done].
    destruct (varchar255 (or_else (PartialCategory.color body) (Category.color c)));
      [|done].
    unfold names_unique. cbn [snd set_Categories Categories].
    rewrite (alter_insert _ _ _ c) by done.
    apply (names_unique_rename db id c); [done..|].
    unfold Category_set. simpl. rewrite Hname. simpl.
    unfold new_name in Hcheck.
    destruct (PartialCategory.name body) as [name|] eqn:Hbody; simpl in Hname.
    + destruct (truthy name) eqn:Htr.
      * rewrite varchar255_fits in Hname by (by apply Hlen). injection Hname as <-.
        simpl in Hcheck. destruct (String.eqb_spec name (Category.name c)) as [->|Hne].
        -- by left.
        -- right. by apply name_taken_false.
      * rewrite varchar255_fits in Hname by done. injection Hname as <-. by left.
    + rewrite varchar255_fits in Hname by done. injection Hname as <-. by left.
  - intros id. rewrite deleteCategory_eq.
    destruct (Categories db !! id) as [c|] eqn:Hc; [|done].
    intros k1 k2 c1 c2. simpl.
    destruct (decide (id = k1)) as [<-|H1]; [by rewrite lookup_delete_eq|].
    destruct (decide (id = k2)) as [<-|H2]; [by rewrite lookup_delete_eq|].
    rewrite !lookup_delete_ne by done. apply Hu.
Qed.

(** A way to check [names_unique] by evaluation. *)
Lemma names_unique_NoDup (db : DB) :
  NoDup ((λ i : Z * Category.t, Category.name i.2) <$> map_to_list (Categories db)) →
  names_unique db.
Proof.
  intros Hnd k1 k2 c1 c2 H1 H2 Hc.
  apply elem_of_map_to_list in H1, H2.
  by pose proof (NoDup_fmap_inj _ _ (k1, c1) (k2, c2) Hnd H1 H2 Hc) as [= -> _].
Qed.

Lemma category_names_stay_unique_witness :
  names_unique (createCategory (renamed "Errands") two_categories).2
  ∧ names_unique (updateCategory 2 (renamed "Errands") two_categories).2
  ∧ names_unique (deleteCategory 1 two_categories).2.
Proof.
  assert (consistent two_categories) as Hdb by decided.
  assert (names_unique two_categories) as Hu by (apply names_unique_NoDup; decided).
  destruct (category_names_stay_unique two_categories Hdb Hu) as (Hc & Hr & Hd).
  split; [|split].
  - apply Hc. intros name [= <-]. simpl. lia.
  - apply Hr. intros name [= <-]. simpl. lia.
  - apply Hd.
Defined.

(** X17.  [updateCategory] on an [id] of the key column's type that is not
    stored replies with the not-found failure and writes nothing.  On a
    stored category, with a
    name that is not taken by another and with strings that fit, it
    succeeds: the name is the request's, and the color is the request's,
    each kept as it is when the request has none or an empty one; the other
    categories and all todos are as before. *)
Theorem updateCategory_merge (id : Z) (body : PartialCategory.t) (db : DB) :
  (INTEGER id → Categories db !! id = None →
     NotFoundError (updateCategory id body db).1 ∧ (updateCategory id body db).2 = db)
  ∧ (∀ c,
       Categories db !! id = Some c →
       (∀ k c', k ≠ id → Categories db !! k = Some c' →
                Some (Category.name c') ≠ PartialCategory.name body) →
       (String.length (or_else (PartialCategory.name body) (Category.name c)) ≤ 255)%nat →
       (String.length (or_else (PartialCategory.color body) (Category.color c)) ≤ 255)%nat →
       (updateCategory id body db).1
         = Success 200
             (id, {| Category.name := or_else (PartialCategory.name body) (Category.name c);
                     Category.color :=
                       or_else (PartialCategory.color body) (Category.color c) |})
             (Some "Category updated successfully")
       ∧ Categories (updateCategory id body db).2
         = <[id := {| Category.name :=
                        or_else (PartialCategory.name body) (Category.name c);
                      Category.color :=
                        or_else (PartialCategory.color body) (Category.color c) |}]>
             (Categories db)
       ∧ Todos (updateCategory id body db).2 = Todos db).
Proof.
  rewrite updateCategory_eq. split.
  - intros _ ->. split; [by right|reflexivity].
  - intros c Hc Hothers Hname Hcolor. rewrite Hc.
    assert (match new_name c body with
            | Some name => name_taken db name
            | None => false
            end = false) as ->.
    { unfold new_name. destruct (PartialCategory.name body) as [name|] eqn:Hbody; [|done].
      destruct (truthy name); [|done].
      destruct (String.eqb_spec name (Category.name c)) as [->|Hne]; [done|]. simpl.
      apply name_taken_false. intros k c' Hk Hc'.
      destruct (decide (k = id)) as [->|Hkid]; [congruence|].
      apply (Hothers k c' Hkid Hk). congruence. }
    rewrite !varchar255_fits by done.
    assert (Category_set (updateCategory_values c body) c
            = {| Category.name := or_else (PartialCategory.name body) (Category.name c);
                 Category.color :=
                   or_else (PartialCategory.color body) (Category.color c) |}) as Hset.
    { unfold Category_set. simpl. by rewrite !varchar255_fits. }
    cbn [fst snd set_Categories Categories Todos].
    rewrite (alter_insert _ _ _ c) by done. rewrite Hset. done.
Qed.

Lemma updateCategory_merge_witness :
  (NotFoundError (updateCategory 3 home two_categories).1
   ∧ (updateCategory 3 home two_categories).2 = two_categories)
  ∧ (updateCategory 2 (PartialCategory.mk (Some "") (Some "#ff0000")) two_categories).1
    = Success 200 (2, {| Category.name := "Home"; Category.color := "#ff0000" |})
        (Some "Category updated successfully")
  ∧ Categories
      (updateCategory 2 (PartialCategory.mk (Some "") (Some "#ff0000")) two_categories).2
    = <[2 := {| Category.name := "Home"; Category.color := "#ff0000" |}]>
        (Categories two_categories)
  ∧ Todos (updateCategory 2 (PartialCategory.mk (Some "") (Some "#ff0000"))
             two_categories).2
    = Todos two_categories.
Proof.
  split.
  { apply (proj1 (updateCategory_merge 3 home two_categories)); [|reflexivity].
    unfold INTEGER. lia. }
  apply (proj2 (updateCategory_merge 2 (PartialCategory.mk (Some "") (Some "#ff0000"))
                  two_categories) (Category.mk "Home" "#1890ff"));
    [reflexivity | | simpl; lia | simpl; lia].
  intros k c' Hne Hk%elem_of_map_to_list. vm_compute in Hk.
  apply elem_of_cons in Hk as [[= -> ->]|Hk]; [discriminate|].
  apply list_elem_of_singleton in Hk as [= -> ->]. done.
Defined.

(** X18.  [getCategoryById] writes nothing; on an [id] of the key column's
    type that is not stored it replies with the not-found failure, and on a
    stored category it
    returns the category with its todos: an entry for each stored todo whose
    [category_id] is the [id], with that todo's [id], title and
    [completed], once, and no other entry. *)
Theorem getCategoryById_todos (id : Z) (db : DB) :
  (getCategoryById id db).2 = db
  ∧ (INTEGER id → Categories db !! id = None →
     NotFoundError (getCategoryById id db).1)
  ∧ (∀ c, Categories db !! id = Some c →
       ∃ cj,
         (getCategoryById id db).1 = Success 200 cj None
         ∧ CategoryJson.id cj = id
         ∧ CategoryJson.category cj = c
         ∧ (∀ k title completed,
              (k, title, completed) ∈ CategoryJson.todos cj
              ↔ ∃ t, Todos db !! k = Some t
                     ∧ Todo.category_id t = Some id
                     ∧ Todo.title t = title
                     ∧ Todo.completed t = completed)
         ∧ NoDup ((λ e : Z * string * bool, e.1.1) <$> CategoryJson.todos cj)).
Proof.
  rewrite getCategoryById_eq. split; [by destruct (Categories db !! id)|]. split.
  - intros _ ->. by right.
  - intros c ->. eexists. split; [reflexivity|]. simpl.
    split; [reflexivity|]. split; [reflexivity|]. split.
    + intros k title completed. rewrite list_elem_of_fmap. split.
      * intros ([k' t] & [= -> -> ->] & [Hc Hk]%list_elem_of_filter).
        apply elem_of_map_to_list in Hk. by exists t.
      * intros (t & Hk & Hc & <- & <-). exists (k, t). split; [done|].
        apply list_elem_of_filter. split; [done|]. by apply elem_of_map_to_list.
    + rewrite <- list_fmap_compose.
      apply (sublist_NoDup _ ((map_to_list (Todos db)).*1));
        [apply NoDup_fst_map_to_list|].
      apply (fmap_sublist fst), sublist_filter.
Qed.

Lemma getCategoryById_todos_witness :
  NotFoundError (getCategoryById 2 first_in_work).1
  ∧ ∃ cj,
      (getCategoryById 1 first_in_work).1 = Success 200 cj None
      ∧ CategoryJson.id cj = 1
      ∧ CategoryJson.category cj = Category.mk "Work" "#0000ff"
      ∧ (∀ k title completed,
           (k, title, completed) ∈ CategoryJson.todos cj
           ↔ ∃ t, Todos first_in_work !! k = Some t
                  ∧ Todo.category_id t = Some 1
                  ∧ Todo.title t = title
                  ∧ Todo.completed t = completed)
      ∧ NoDup ((λ e : Z * string * bool, e.1.1) <$> CategoryJson.todos cj).
Proof.
  split.
  - apply (proj1 (proj2 (getCategoryById_todos 2 first_in_work))); [|reflexivity].
    unfold INTEGER. lia.
  - exact (proj2 (proj2 (getCategoryById_todos 1 first_in_work))
             (Category.mk "Work" "#0000ff") eq_refl).
Defined.

Lemma filter_none {A} (P : A → Prop) `{∀ x, Decision (P x)} (l : list A) :
  (∀ x, x ∈ l → ¬ P x) → filter P l = [].
Proof.
  intros Hl. destruct (filter P l) as [|x l'] eqn:Hf; [done|].
  assert (x ∈ filter P l) as [HP Hx]%list_elem_of_filter
    by (rewrite Hf; apply list_elem_of_here).
  by destruct (Hl x Hx).
Qed.

(** X19.  A category that was just created has no todos: in a consistent
    store, [getCategoryById] of the [id] that a successful [createCategory]
    returned lists none. *)
Theorem createCategory_then_getCategoryById (body : PartialCategory.t) (db : DB)
    st (id : Z) (c : Category.t) msg :
  consistent db →
  (createCategory body db).1 = Success st (id, c) msg →
  (getCategoryById id (createCategory body db).2).1
  = Success 200
      {| CategoryJson.id := id; CategoryJson.category := c; CategoryJson.todos := [] |}
      None.
Proof.
  intros (Hseq & _ & Hri). pose proof (next_category_key_free db Hseq) as Hfree.
  rewrite createCategory_eq.
  destruct (PartialCategory.name body) as [name|]; [|discriminate].
  destruct (name_taken db name); [discriminate|]. cbv zeta.
  destruct (varchar255 name) as [name'|]; [|discriminate].
  destruct (varchar255 (or_else (PartialCategory.color body) "#1890ff")) as [color'|];
    [|discriminate].
  rewrite Hfree.
  rewrite (bool_decide_eq_false_2 (is_Some (@None Category.t))) by apply is_Some_None.
  intros [= _ <- <- _]. rewrite getCategoryById_eq.
  cbn [fst snd set_Categories Categories Todos]. rewrite lookup_insert_eq.
  cbn [fst]. do 2 f_equal.
  rewrite filter_none; [reflexivity|].
  intros [k t] Hk%elem_of_map_to_list Hc. simpl in Hc.
  specialize (Hri k t Hk). simpl in Hri. rewrite Hc in Hri. simpl in Hri.
  apply bool_decide_eq_true in Hri as [? Hsome]. congruence.
Qed.

Lemma createCategory_then_getCategoryById_witness :
  (getCategoryById 2 (createCategory home first_in_work).2).1
  = Success 200
      {| CategoryJson.id := 2; CategoryJson.category := Category.mk "Home" "#1890ff";
         CategoryJson.todos := [] |}
      None.
Proof.
  assert (consistent first_in_work) as Hdb by decided.
  exact (createCategory_then_getCategoryById home first_in_work 201%nat 2
           (Category.mk "Home" "#1890ff") (Some "Category created successfully")
           Hdb eq_refl).
Defined.

(** X20.  After [deleteCategory] of a stored category, [getCategoryById] and
    a second [deleteCategory] of its [id] are answered with the not-found
    failure, and [getTodoById] shows each todo that was in the category
    with [category_id] null and no category, its other fields as before. *)
Theorem deleteCategory_then_reads (id : Z) (db : DB) :
  is_Some (Categories db !! id) →
  NotFoundError (getCategoryById id (deleteCategory id db).2).1
  ∧ NotFoundError (deleteCategory id (deleteCategory id db).2).1
  ∧ (deleteCategory id (deleteCategory id db).2).2 = (deleteCategory id db).2
  ∧ (∀ k t, Todos db !! k = Some t → Todo.category_id t = Some id →
       (getTodoById k (deleteCategory id db).2).1
       = Success 200
           {| TodoJson.id := k;
              TodoJson.todo :=
                {| Todo.title := Todo.title t; Todo.description := Todo.description t;
                   Todo.completed := Todo.completed t; Todo.priority := Todo.priority t;
                   Todo.due_date := Todo.due_date t; Todo.category_id := None;
                   Todo.createdAt := Todo.createdAt t |};
              TodoJson.category := None |}
           None).
Proof.
  intros [c Hc]. rewrite deleteCategory_eq, Hc.
  rewrite getCategoryById_eq, deleteCategory_eq.
  cbn [fst snd set_Categories set_Todos Categories Todos]. rewrite lookup_delete_eq.
  split; [by right|]. split; [by right|]. split; [reflexivity|].
  intros k t Hk Ht. rewrite getTodoById_eq.
  cbn [fst snd set_Categories set_Todos Categories Todos].
  rewrite lookup_fmap, Hk. simpl. unfold include_category, detach. simpl.
  rewrite bool_decide_eq_true_2 by done. reflexivity.
Qed.

Lemma deleteCategory_then_reads_witness :
  NotFoundError (getCategoryById 1 (deleteCategory 1 first_in_work).2).1
  ∧ NotFoundError (deleteCategory 1 (deleteCategory 1 first_in_work).2).1
  ∧ (deleteCategory 1 (deleteCategory 1 first_in_work).2).2
    = (deleteCategory 1 first_in_work).2
  ∧ (∀ k t, Todos first_in_work !! k = Some t → Todo.category_id t = Some 1 →
       (getTodoById k (deleteCategory 1 first_in_work).2).1
       = Success 200
           {| TodoJson.id := k;
              TodoJson.todo :=
                {| Todo.title := Todo.title t; Todo.description := Todo.description t;
                   Todo.completed := Todo.completed t; Todo.priority := Todo.priority t;
                   Todo.due_date := Todo.due_date t; Todo.category_id := None;
                   Todo.createdAt := Todo.createdAt t |};
              TodoJson.category := None |}
           None).
Proof.
  apply (deleteCategory_then_reads 1 first_in_work). by eexists.
Defined.

(** X21.  [getCategories] never fails and writes nothing; it returns every
    stored category once, under its [id], in an order that ascends by
    name in the collation of the database. *)
Theorem getCategories_all `{NameOrder} (db : DB) :
  ∃ l,
    getCategories db = (Success 200 l None, db)
    ∧ l ≡ₚ map_to_list (Categories db)
    ∧ (∀ k c, (k, c) ∈ l ↔ Categories db !! k = Some c)
    ∧ NoDup l.*1
    ∧ Sorted (λ a b, name_le (Category.name a.2) (Category.name b.2)) l.
Proof.
  eexists. split; [apply getCategories_eq|].
  split; [apply order_by_name_Permutation|]. split; [|split].
  - intros k c. rewrite order_by_name_Permutation. apply elem_of_map_to_list.
  - rewrite order_by_name_Permutation. apply NoDup_fst_map_to_list.
  - apply order_by_name_Sorted.
Qed.

(** ** The validation middleware *)

Lemma trim_start_nil (l : list ascii) :
  trim_start l = [] ↔ forallb is_white_space l = true.
Proof.
  induction l as [|c l IH]; [done|]. simpl.
  destruct (is_white_space c); [exact IH|]. split; discriminate.
Qed.

Lemma trim_start_head (l : list ascii) (c : ascii) (l' : list ascii) :
  trim_start l = c :: l' → is_white_space c = false.
Proof.
  induction l as [|a l IH]; [done|]. simpl.
  destruct (is_white_space a) eqn:Ha; [exact IH|]. by intros [= <- _].
Qed.

(** [s.trim().length === 0] holds of the strings of white space only. *)
Lemma trim_length_0 (s : string) : (String.length (trim s) =? 0)%nat = blank s.
Proof.
  unfold trim, blank. rewrite length_string_of_list_ascii, length_reverse.
  destruct (forallb is_white_space (chars s)) eqn:Hb.
  - apply trim_start_nil in Hb. by rewrite Hb.
  - destruct (trim_start (chars s)) as [|c l] eqn:Hl.
    + apply trim_start_nil in Hl. congruence.
    + apply trim_start_head in Hl. rewrite reverse_cons.
      destruct (trim_start (reverse l ++ [c])) as [|c' l'] eqn:Hr; [|reflexivity].
      apply trim_start_nil in Hr. rewrite forallb_app in Hr. simpl in Hr.
      rewrite Hl, andb_false_r in Hr. discriminate.
Qed.

Lemma required_check (s : string) :
  negb (truthy s) || (String.length (trim s) =? 0)%nat = blank s.
Proof. rewrite trim_length_0. by destruct s. Qed.

Lemma blank_false_truthy (s : string) : blank s = false → truthy s = true.
Proof. by destruct s. Qed.

Lemma is_priority_true (p : string) :
  is_priority p = true ↔ p = "low" ∨ p = "medium" ∨ p = "high".
Proof.
  unfold is_priority. rewrite !orb_true_iff, !String.eqb_eq. tauto.
Qed.

Lemma truthy_false_iff (s : string) : truthy s = false ↔ s = "".
Proof.
  unfold truthy. rewrite negb_false_iff. apply String.eqb_eq.
Qed.

(** What a request that went through [validateTodo] has. *)
Lemma validateTodo_Next_inv (body : PartialTodo.t) :
  validateTodo body = Next →
  (∃ title, PartialTodo.title body = Some title
            ∧ blank title = false
            ∧ (String.length title ≤ 200)%nat)
  ∧ (∀ p, PartialTodo.priority body = Some p →
          p = "" ∨ p = "low" ∨ p = "medium" ∨ p = "high").
Proof.
  unfold validateTodo, validateTodo_errors.
  destruct (PartialTodo.title body) as [t|]; [|done].
  rewrite required_check. destruct (blank t) eqn:Hb; [done|].
  rewrite (blank_false_truthy _ Hb). cbn [andb].
  destruct (Nat.ltb_spec 200 (String.length t)) as [Hlt|Hle]; [done|].
  intros Hnext. split; [by exists t|]. intros p Hp. rewrite Hp in Hnext.
  destruct (truthy p) eqn:Htr.
  - destruct (is_priority p) eqn:Hprio; [|done].
    right. by apply is_priority_true.
  - left. by apply truthy_false_iff.
Qed.

(** X22.  [validateTodo] hands the request on exactly when it has a title
    that is not only white space and has at most 200 characters, and its
    priority is absent, empty, or one of low, medium and high.  A title of
    exactly 200 characters passes. *)
Theorem validateTodo_passes (body : PartialTodo.t) :
  validateTodo body = Next
  ↔ (∃ title, PartialTodo.title body = Some title
              ∧ blank title = false
              ∧ (String.length title ≤ 200)%nat)
    ∧ (∀ p, PartialTodo.priority body = Some p →
            p = "" ∨ p = "low" ∨ p = "medium" ∨ p = "high").
Proof.
  split; [apply validateTodo_Next_inv|].
  intros [(t & Ht & Hb & Hl) Hp]. unfold validateTodo, validateTodo_errors.
  rewrite Ht, required_check, Hb, (blank_false_truthy _ Hb). cbn [andb].
  destruct (Nat.ltb_spec 200 (String.length t)); [lia|].
  destruct (PartialTodo.priority body) as [p|]; [|reflexivity].
  destruct (Hp p eq_refl) as [->| [->| [->| ->]]]; reflexivity.
Qed.

Lemma validateTodo_passes_witness :
  validateTodo buy_50_apples = Next
  ∧ validateTodo
      (titled (string_of_list_ascii (replicate 200 "a"%char))) = Next.
Proof.
  split.
  - apply (proj2 (validateTodo_passes buy_50_apples)). split.
    + exists "Buy 50 apples". split; [reflexivity|].
      split; [reflexivity|vm_compute; lia].
    + intros p Hp. discriminate Hp.
  - apply (proj2 (validateTodo_passes
                    (titled (string_of_list_ascii (replicate 200 "a"%char))))).
    split.
    + eexists. split; [reflexivity|]. split; [reflexivity|vm_compute; lia].
    + intros p Hp. discriminate Hp.
Defined.

(** What a request that went through [validateCategory] has. *)
Lemma validateCategory_Next_inv (body : PartialCategory.t) :
  validateCategory body = Next →
  ∃ name, PartialCategory.name body = Some name
          ∧ blank name = false
          ∧ (String.length name ≤ 50)%nat.
Proof.
  unfold validateCategory, validateCategory_errors.
  destruct (PartialCategory.name body) as [t|]; [|done].
  rewrite required_check. destruct (blank t) eqn:Hb; [done|].
  rewrite (blank_false_truthy _ Hb). cbn [andb].
  destruct (Nat.ltb_spec 50 (String.length t)) as [Hlt|Hle]; [done|].
  intros _. by exists t.
Qed.

(** X23.  [validateCategory] hands the request on exactly when it has a name
    that is not only white space and has at most 50 characters. *)
Theorem validateCategory_passes (body : PartialCategory.t) :
  validateCategory body = Next
  ↔ ∃ name, PartialCategory.name body = Some name
            ∧ blank name = false
            ∧ (String.length name ≤ 50)%nat.
Proof.
  split; [apply validateCategory_Next_inv|].
  intros (t & Ht & Hb & Hl). unfold validateCategory, validateCategory_errors.
  rewrite Ht, required_check, Hb, (blank_false_truthy _ Hb). cbn [andb].
  destruct (Nat.ltb_spec 50 (String.length t)); [lia|reflexivity].
Qed.

Lemma validateCategory_passes_witness : validateCategory home = Next.
Proof.
  apply (proj2 (validateCategory_passes home)).
  exists "Home". split; [reflexivity|]. split; [reflexivity|vm_compute; lia].
Defined.

(** X24.  A request that [validateTodo] hands on is stored by [createTodo]
    unless its [category_id] names no stored category: where no key is
    beyond the sequence, [createTodo] of such a request succeeds exactly
    when [category_id] is absent, null or the [id] of a stored category,
    and the todo it returns has the title of the request, is not completed,
    and has the priority of the request, or "medium" when that is absent or
    empty. *)
Theorem validateTodo_then_createTodo (body : PartialTodo.t) (now : Z) (db : DB) :
  validateTodo body = Next →
  sequences_ahead db →
  ((createTodo body now db).1 = Failure 400 "Error creating todo"
   ↔ references_Category db (default None (PartialTodo.category_id body)) = false)
  ∧ (references_Category db (default None (PartialTodo.category_id body)) = true →
     ∃ d, (createTodo body now db).1
          = Success 201 (Some d) (Some "Todo created successfully")
          ∧ TodoJson.id d = Todos_seq db + 1
          ∧ Some (Todo.title (TodoJson.todo d)) = PartialTodo.title body
          ∧ Todo.completed (TodoJson.todo d) = false
          ∧ Todo.priority (TodoJson.todo d)
            = or_else (PartialTodo.priority body) "medium").
Proof.
  intros Hv Hseq.
  apply validateTodo_Next_inv in Hv as [(title & Htitle & _ & Hlen) Hprio].
  pose proof (next_key_free db Hseq) as Hfree.
  assert (String.length (or_else (PartialTodo.priority body) "medium") ≤ 255)%nat
    as Hp.
  { destruct (PartialTodo.priority body) as [p|]; [|vm_compute; lia].
    destruct (Hprio p eq_refl) as [->| [->| [->| ->]]]; vm_compute; lia. }
  rewrite createTodo_eq, Htitle. cbv zeta. rewrite Hfree.
  rewrite (bool_decide_eq_false_2 (is_Some (@None Todo.t))) by apply is_Some_None.
  rewrite andb_true_r.
  destruct (references_Category db (default None (PartialTodo.category_id body)))
    eqn:Hfk.
  - assert (accepted db (createTodo_values body) = true) as ->.
    { apply accepted_createTodo_values. split; [|split; [|done]].
      - intros ? Ht. rewrite Htitle in Ht. injection Ht as <-.
        rewrite varchar255_fits by lia. by eexists.
      - rewrite varchar255_fits by done. by eexists. }
    cbn [fst]. split; [done|]. intros _. eexists. split; [reflexivity|].
    unfold include_category, Todo_set, createTodo_values, stored_string. simpl.
    rewrite Htitle. simpl. rewrite !varchar255_fits by (done || lia). done.
  - assert (accepted db (createTodo_values body) = false) as ->.
    { apply not_true_iff_false. intros Ha.
      apply accepted_createTodo_values in Ha as (_ & _ & Ha). congruence. }
    done.
Qed.

Lemma validateTodo_then_createTodo_witness :
  ∃ d, (createTodo (second_in_category 1) 200 work_db).1
       = Success 201 (Some d) (Some "Todo created successfully")
       ∧ TodoJson.id d = Todos_seq work_db + 1
       ∧ Some (Todo.title (TodoJson.todo d)) = PartialTodo.title (second_in_category 1)
       ∧ Todo.completed (TodoJson.todo d) = false
       ∧ Todo.priority (TodoJson.todo d)
         = or_else (PartialTodo.priority (second_in_category 1)) "medium".
Proof.
  assert (sequences_ahead work_db) as Hseq by decided.
  exact (proj2 (validateTodo_then_createTodo (second_in_category 1) 200 work_db
                  eq_refl Hseq) eq_refl).
Defined.

(** X25.  A request that [validateCategory] hands on, with a color of at
    most 255 characters, is stored by [createCategory] unless a stored
    category has its name: where no key is beyond the sequence, the reply
    is the duplicate failure and the store is not touched when the name is
    taken, and otherwise the category is created with the name of the
    request. *)
Theorem validateCategory_then_createCategory (body : PartialCategory.t) (db : DB) :
  validateCategory body = Next →
  sequences_ahead db →
  (String.length (or_else (PartialCategory.color body) "#1890ff") ≤ 255)%nat →
  ((∃ k c, Categories db !! k = Some c
           ∧ Some (Category.name c) = PartialCategory.name body) →
   createCategory body db = (Failure 400 "Category already exists", db))
  ∧ ((∀ k c, Categories db !! k = Some c →
             Some (Category.name c) ≠ PartialCategory.name body) →
     ∃ c, (createCategory body db).1
          = Success 201 (Categories_seq db + 1, c)
              (Some "Category created successfully")
          ∧ Some (Category.name c) = PartialCategory.name body
          ∧ Category.color c = or_else (PartialCategory.color body) "#1890ff"
          ∧ Categories (createCategory body db).2 !! (Categories_seq db + 1) = Some c).
Proof.
  intros Hv Hseq Hcolor.
  apply validateCategory_Next_inv in Hv as (name & Hname & _ & Hlen).
  rewrite createCategory_eq, Hname. split.
  - intros (k & c & Hk & [= Hc]).
    assert (name_taken db name = true) as ->; [|done].
    apply name_taken_true. eauto.
  - intros Hfree.
    assert (name_taken db name = false) as ->.
    { apply name_taken_false. intros k c Hk Hc. apply (Hfree k c Hk). by rewrite Hc. }
    cbv zeta. rewrite !varchar255_fits by (done || lia).
    rewrite (next_category_key_free db Hseq).
    rewrite (bool_decide_eq_false_2 (is_Some (@None Category.t))) by apply is_Some_None.
    eexists. split; [reflexivity|]. cbn [fst snd set_Categories Categories].
    rewrite lookup_insert_eq. done.
Qed.

Lemma validateCategory_then_createCategory_witness :
  createCategory work work_db = (Failure 400 "Category already exists", work_db).
Proof.
  assert (sequences_ahead work_db) as Hseq by decided.
  assert (String.length (or_else (PartialCategory.color work) "#1890ff") ≤ 255)%nat
    as Hcolor by (vm_compute; lia).
  apply (proj1 (validateCategory_then_createCategory work work_db eq_refl Hseq Hcolor)).
  exists 1, (Category.mk "Work" "#0000ff"). split; reflexivity.
Defined.

(** ** The edges of [getTodos] *)

Lemma window_taken_iff (limit offset : Z) :
  window_taken limit offset = true
  ↔ 0 ≤ limit ≤ BIGINT_MAX ∧ 0 ≤ offset ≤ BIGINT_MAX.
Proof. unfold window_taken. rewrite !andb_true_iff, !Z.leb_le. lia. Qed.

(** X26.  [getTodos] writes nothing, and its reply is the failure of its
    catch block or a success with status 200.  Where [limit] and
    [(page - 1) * limit] are within [MAX_SAFE_INTEGER] on either side of 0,
    the reply is the failure exactly when the engine refuses the statement:
    the category of the request is not empty and no integer literal, the
    limit is negative, or the limit is positive and the page is below 1.
    A limit beyond the range of [BIGINT] is refused as well. *)
Theorem getTodos_fails_iff `{Engine} (q : Query.t) (db : DB) :
  (getTodos q db).2 = db
  ∧ ((getTodos q db).1 = Failure 500 "Error fetching todos"
     ∨ ∃ p, (getTodos q db).1 = Success 200 p None)
  ∧ (Z.abs (default 10 (Query.limit q)) ≤ MAX_SAFE_INTEGER →
     Z.abs ((default 1 (Query.page q) - 1) * default 10 (Query.limit q))
       ≤ MAX_SAFE_INTEGER →
     ((getTodos q db).1 = Failure 500 "Error fetching todos"
      ↔ where_well_typed (build_where q) = false
        ∨ default 10 (Query.limit q) < 0
        ∨ (0 < default 10 (Query.limit q) ∧ default 1 (Query.page q) < 1)))
  ∧ (BIGINT_MAX < default 10 (Query.limit q) →
     (getTodos q db).1 = Failure 500 "Error fetching todos").
Proof.
  rewrite getTodos_eq. cbn [fst snd].
  set (limit := default 10 (Query.limit q)).
  set (page := default 1 (Query.page q)).
  split; [reflexivity|]. split; [|split].
  - destruct (_ && _); [right; by eexists|by left].
  - unfold MAX_SAFE_INTEGER. intros Hlimit Hoffset.
    destruct (where_well_typed (build_where q)); cbn [andb];
      [|split; [by left|done]].
    destruct (window_taken limit ((page - 1) * limit)) eqn:Hw.
    + apply window_taken_iff in Hw as [Hl Ho]. split; [done|].
      intros [?|[?|[Hpos Hpage]]]; [done|lia|].
      assert ((page - 1) * limit < 0); [apply Z.mul_neg_pos; lia|lia].
    + split; [|done]. intros _. right.
      destruct (Z.lt_ge_cases limit 0) as [|Hl]; [by left|]. right.
      assert (¬ (0 ≤ limit ≤ BIGINT_MAX ∧ 0 ≤ (page - 1) * limit ≤ BIGINT_MAX)) as Hno.
      { rewrite <- window_taken_iff, Hw. discriminate. }
      unfold BIGINT_MAX in Hno.
      assert ((page - 1) * limit < 0) as Hneg by lia.
      destruct (Z.eq_dec limit 0) as [H0|H0]; [rewrite H0, Z.mul_0_r in Hneg; lia|].
      split; [lia|].
      destruct (Z.lt_ge_cases page 1) as [|Hge]; [done|].
      assert (0 ≤ (page - 1) * limit); [apply Z.mul_nonneg_nonneg; lia|lia].
  - intros Hbig.
    assert (window_taken limit ((page - 1) * limit) = false) as ->.
    { apply not_true_iff_false. rewrite window_taken_iff. lia. }
    by rewrite andb_false_r.
Qed.

Lemma getTodos_fails_iff_witness :
  (@getTodos engine_id_asc (page_query 0 5) two_todos).1
    = Failure 500 "Error fetching todos"
  ∧ (@getTodos engine_id_asc (page_query 1 10000000000000000000) two_todos).1
    = Failure 500 "Error fetching todos".
Proof.
  split.
  - apply (proj1 (proj2 (proj2
             (@getTodos_fails_iff engine_id_asc (page_query 0 5) two_todos))));
      [simpl; unfold MAX_SAFE_INTEGER; lia | simpl; unfold MAX_SAFE_INTEGER; lia |].
    right. right. split; reflexivity.
  - apply (proj2 (proj2 (proj2
             (@getTodos_fails_iff engine_id_asc (page_query 1 10000000000000000000)
                two_todos)))).
    simpl. unfold BIGINT_MAX. lia.
Defined.

(** X27.  With a limit of 0 [getTodos] succeeds on every page number, also
    on one below 1: the reply has no rows, the count of the todos that
    match, and a number of pages that is no number. *)
Theorem getTodos_limit_zero `{Engine} (q : Query.t) (db : DB) :
  Query.limit q = Some 0 →
  where_well_typed (build_where q) = true →
  getTodos q db
  = (Success 200
       {| data := [];
          pagination :=
            {| total := Z.of_nat (List.length (matching (build_where q) db));
               current_page := default 1 (Query.page q);
               per_page := 0;
               total_pages := None |} |}
       None, db).
Proof.
  intros Hl Hw. rewrite getTodos_eq, Hw. unfold page_of, window. rewrite Hl.
  cbn [default]. rewrite Z.mul_0_r. reflexivity.
Qed.

Lemma getTodos_limit_zero_witness :
  @getTodos engine_id_asc (page_query (-3) 0) two_todos
  = (Success 200
       {| data := [];
          pagination :=
            {| total :=
                 Z.of_nat (List.length
                             (@matching engine_id_asc
                                (build_where (page_query (-3) 0)) two_todos));
               current_page := default 1 (Query.page (page_query (-3) 0));
               per_page := 0;
               total_pages := None |} |}
       None, two_todos).
Proof.
  exact (@getTodos_limit_zero engine_id_asc (page_query (-3) 0) two_todos
           eq_refl eq_refl).
Defined.
